(** * K-fold training script: fold splitting, orchestration and majority vote

    A shallow embedding of [src/train.py].  The script wires three library
    calls together (scikit-learn's [KFold], pandas' [DataFrame.mode] and
    PyTorch Lightning's [ModelCheckpoint]) around an opaque trainer; the
    library calls are embedded by the algorithm their documentation and
    source describe, the trainer is a section variable. *)

From Stdlib Require Import ZArith QArith Ascii.
From stdpp Require Import base option list sorting gmap sets strings pretty.

Local Open Scope nat_scope.

(* ===================================================================== *)
(** ** Exceptions and the program monad *)
(* ===================================================================== *)

(** The Python exceptions the script can meet.  [DanglingRef] has no Python
    counterpart: a Python list only holds live objects, so it marks stores
    that no run of the script can build. *)
Inductive exn : Type :=
  | IndexError
  | KeyError
  | ValueError
  | OverflowError
  | FileNotFoundError
  | DanglingRef.

Inductive result (A : Type) : Type :=
  | Ok (a : A)
  | Raise (e : exn).
Arguments Ok {A} a.
Arguments Raise {A} e.

(** A statement sequence over a mutable state [S].  An exception ends the
    sequence; what was written before it stays written. *)
Definition prog (S A : Type) : Type := S → result A * S.

Definition pure {S A} (a : A) : prog S A := λ s, (Ok a, s).
Definition raise {S A} (e : exn) : prog S A := λ s, (Raise e, s).
Definition bind {S A B} (m : prog S A) (k : A → prog S B) : prog S B :=
  λ s, match m s with
       | (Ok a, s') => k a s'
       | (Raise e, s') => (Raise e, s')
       end.
Definition lift {S A} (r : result A) : prog S A := λ s, (r, s).
Definition gets {S A} (f : S → A) : prog S A := λ s, (Ok (f s), s).
Definition modify {S} (f : S → S) : prog S unit := λ s, (Ok tt, f s).

Notation "'let*' x ':=' m 'in' k" := (bind m (λ x, k))
  (at level 10, x pattern, k at level 200).

(** Exceptions without a state. *)
Definition rmap {A B} (f : A → B) (r : result A) : result B :=
  match r with Ok a => Ok (f a) | Raise e => Raise e end.

Definition rbind {A B} (r : result A) (k : A → result B) : result B :=
  match r with Ok a => k a | Raise e => Raise e end.

(** [for x in xs: acc = body(acc, x)] *)
Fixpoint for_each {S A B} (xs : list A) (acc : B) (body : B → A → prog S B)
  : prog S B :=
  match xs with
  | [] => pure acc
  | x :: rest => let* acc' := body acc x in for_each rest acc' body
  end.

(** [enumerate(xs)] *)
Definition enumerate {A} (xs : list A) : list (nat * A) :=
  zip (seq 0 (length xs)) xs.

(* ===================================================================== *)
(** ** Tables *)
(* ===================================================================== *)

(** One row of [submission.csv]: columns [id, prediction]. *)
Record Row : Type := mkRow { row_id : string; row_prediction : Z }.

(** A submission table (a pandas DataFrame with a default RangeIndex). *)
Abbreviation Submission := (list Row) (only parsing).

(** The columns [df.id] and [df.prediction]. *)
Definition df_id (df : Submission) : list string := row_id <$> df.
Definition df_prediction (df : Submission) : list Z := row_prediction <$> df.

(** DataFrame objects live in a store; Python variables hold references. *)
Abbreviation loc := nat (only parsing).
Abbreviation heap := (gmap loc Submission) (only parsing).

(** [obj] for an existing object. *)
Definition deref (r : loc) : prog heap Submission :=
  λ h, match h !! r with Some df => (Ok df, h) | None => (Raise DanglingRef, h) end.

(** A new object. *)
Definition alloc (df : Submission) : prog heap loc :=
  λ h, let r := fresh (dom h) in (Ok r, <[r := df]> h).

(** [xs[i]] on a Python list. *)
Definition list_getitem {S A} (xs : list A) (i : nat) : prog S A :=
  match xs !! i with Some x => pure x | None => raise IndexError end.

(** [df.copy()] (deep by default): a new object with the same contents. *)
Definition copy (r : loc) : prog heap loc := let* df := deref r in alloc df.

(** [df.prediction.to_list()] *)
Definition prediction_to_list (r : loc) : prog heap (list Z) :=
  let* df := deref r in pure (df_prediction df).

(** The rows of [df] with the prediction column replaced by [values]. *)
Definition set_column (df : Submission) (values : list Z) : Submission :=
  zip_with (λ row v, mkRow (row_id row) v) df values.

(** [df.prediction = values]: pandas replaces the existing column and raises
    ValueError when the list length differs from the number of rows. *)
Definition set_prediction (r : loc) (values : list Z) : prog heap unit :=
  let* df := deref r in
  if decide (length values = length df)
  then modify (λ h : heap, <[r := set_column df values]> h)
  else raise ValueError.

(* ===================================================================== *)
(** ** pandas: DataFrame(dict), mode(axis=1), [0], astype("int") *)
(* ===================================================================== *)

(** [Series.mode()]: the values that occur most often, sorted ascending;
    empty for an empty Series. *)
Definition count (s : list Z) (v : Z) : nat := count_occ Z.eq_dec s v.
Definition max_count (s : list Z) : nat := max_list (count s <$> s).
Definition Series_mode (s : list Z) : list Z :=
  merge_sort Z.le
    (remove_dups (filter (λ v, count s v = max_count s) s)).

(** The dtypes a column of Python ints can take on its way through the
    call chain.  Every value stays an integer, so a value is kept as [Z]
    whatever its dtype; a float64 value is a [Z] that a double holds. *)
Inductive dtype : Type := int64 | uint64 | float64 | object.

Definition in_int64 (z : Z) : Prop := (- 2 ^ 63 ≤ z < 2 ^ 63)%Z.
Definition in_uint64 (z : Z) : Prop := (0 ≤ z < 2 ^ 64)%Z.

Global Instance in_int64_dec z : Decision (in_int64 z).
Proof. unfold in_int64. apply _. Defined.
Global Instance in_uint64_dec z : Decision (in_uint64 z).
Proof. unfold in_uint64. apply _. Defined.
Global Instance dtype_eq_dec : EqDecision dtype.
Proof. solve_decision. Defined.

(** The dtype pandas infers for a list of Python ints: int64 when all fit,
    uint64 when all are non-negative and fit 64 bits, object otherwise (and
    for the empty list). *)
Definition infer_dtype (values : list Z) : dtype :=
  match values with
  | [] => object
  | _ =>
    if decide (Forall in_int64 values) then int64
    else if decide (Forall in_uint64 values) then uint64
    else object
  end.

(** An integer as the nearest double, ties to even (53 bits of mantissa). *)
Definition round_float64 (z : Z) : Z :=
  let a := Z.abs z in
  if (a <? 2 ^ 53)%Z then z
  else
    let e := (Z.log2 a - 52)%Z in
    let q := Z.shiftr a e in
    let r := (a - Z.shiftl q e)%Z in
    let half := Z.shiftl 1 (e - 1) in
    let q' := if ((half <? r) || ((r =? half) && Z.odd q))%Z
              then (q + 1)%Z else q in
    (Z.sgn z * Z.shiftl q' e)%Z.

(** The C casts behind [astype("int")]: a double outside the range comes
    out as the smallest int64 (x86-64), a uint64 wraps around. *)
Definition float64_to_int64 (z : Z) : Z :=
  if decide (in_int64 z) then z else (- 2 ^ 63)%Z.
Definition uint64_to_int64 (z : Z) : Z :=
  if (z <? 2 ^ 63)%Z then z else (z - 2 ^ 64)%Z.

(** A frame built from a dict of columns, kept column-major; labels are the
    dict keys in insertion order. *)
Record Wide : Type := mkWide { columns : list nat; nrows : nat; data : list (list Z) }.

(** [pd.DataFrame(results)] for a dict of lists: ValueError ("All arrays
    must be of the same length") on ragged columns. *)
Definition DataFrame (results : list (nat * list Z)) : result Wide :=
  let cols := snd <$> results in
  let n := default 0 (head (length <$> cols)) in
  if decide (Forall (λ c, length c = n) cols)
  then Ok (mkWide (fst <$> results) n cols)
  else Raise ValueError.

(** The dtype of [frame.values], the common dtype of the columns: their
    dtype when they agree, object as soon as one is object, float64 for a
    mix of int64 and uint64. *)
Definition frame_dtype (cols : list (list Z)) : dtype :=
  if decide (Exists (λ c, infer_dtype c = object) cols) then object
  else if decide (Forall (λ c, infer_dtype c = int64) cols) then int64
  else if decide (Forall (λ c, infer_dtype c = uint64) cols) then uint64
  else float64.

(** The columns as [frame.values] holds them. *)
Definition frame_values (cols : list (list Z)) : list (list Z) :=
  match frame_dtype cols with
  | float64 => (λ c : list Z, round_float64 <$> c) <$> cols
  | _ => cols
  end.

(** Row [i] of columns. *)
Definition row_of (cols : list (list Z)) (i : nat) : list Z :=
  omap (λ c, c !! i) cols.

(** The frame [mode(axis=1)] returns: row [i] holds the modes of row [i],
    padded with NaN ([None]) up to the widest row, under columns [0..m-1].
    When a row is padded the integers of an int64 or uint64 frame become
    doubles, in every row.  On a frame without rows pandas hands back a
    copy of the frame. *)
Record Modes : Type :=
  mkModes { mcolumns : list nat; mdtype : dtype; mrows : list (list (option Z)) }.

Definition pad (m : nat) (l : list Z) : list (option Z) :=
  (Some <$> l) ++ replicate (m - length l) None.

(** Some row has fewer modes than the widest. *)
Definition ragged (ms : list (list Z)) : Prop :=
  Exists (λ l, length l < max_list (length <$> ms)) ms.

Global Instance ragged_dec ms : Decision (ragged ms).
Proof. unfold ragged. apply _. Defined.

Definition mode_axis1 (w : Wide) : Modes :=
  match nrows w with
  | 0 => mkModes (columns w) object []
  | _ =>
    let d := frame_dtype (data w) in
    let cols := frame_values (data w) in
    let ms := (λ i, Series_mode (row_of cols i)) <$> seq 0 (nrows w) in
    let m := max_list (length <$> ms) in
    if decide (ragged ms) then
      match d with
      | object => mkModes (seq 0 m) object (pad m <$> ms)
      | _ => mkModes (seq 0 m) float64
               (pad m <$> ((λ l : list Z, round_float64 <$> l) <$> ms))
      end
    else mkModes (seq 0 m) d (pad m <$> ms)
  end.

(** A column taken out of a frame. *)
Record Series : Type := mkSeries { sdtype : dtype; svalues : list (option Z) }.

(** [frame[label]]: the column under [label], KeyError when there is none.
    A column of an object frame that holds integers only has the dtype
    pandas infers for them. *)
Definition getitem_column (f : Modes) (label : nat) : result Series :=
  match list_find (λ c, c = label) (mcolumns f) with
  | Some (j, _) =>
      let values := (λ r, mjoin (r !! j)) <$> mrows f in
      let d := match mdtype f with
               | object =>
                   if decide (Forall is_Some values)
                   then infer_dtype (omap id values) else object
               | d => d
               end in
      Ok (mkSeries d values)
  | None => Raise KeyError
  end.

(** One element of an object column cast to a C long. *)
Definition int_of_object (x : option Z) : result Z :=
  match x with
  | None => Raise ValueError
  | Some v => if decide (in_int64 v) then Ok v else Raise OverflowError
  end.

(** All elements, in order, stopping at the first that fails. *)
Fixpoint cast_each (cast : option Z → result Z) (xs : list (option Z))
  : result (list Z) :=
  match xs with
  | [] => Ok []
  | x :: rest =>
      rbind (cast x) (λ v, rbind (cast_each cast rest) (λ vs, Ok (v :: vs)))
  end.

(** [series.astype("int").to_list()]: ValueError on NaN; an int64 column is
    kept, a uint64 column wraps, a float64 column is cast, an object column
    is converted element by element and raises OverflowError on an integer
    that does not fit. *)
Definition astype_int (s : Series) : result (list Z) :=
  match sdtype s with
  | object => cast_each int_of_object (svalues s)
  | d =>
      if decide (Forall is_Some (svalues s))
      then Ok ((match d with
                | uint64 => uint64_to_int64
                | float64 => float64_to_int64
                | _ => id
                end) <$> omap id (svalues s))
      else Raise ValueError
  end.

(* ===================================================================== *)
(** ** train.py: most_frequent_prediction *)
(* ===================================================================== *)

Definition most_frequent_prediction (fold_submissions : list loc) : prog heap loc :=
  let* first := list_getitem fold_submissions 0 in
  let* sample_submission := copy first in
  let* results :=
    for_each (enumerate fold_submissions) []
      (λ results '(ii, df),
         let* col := prediction_to_list df in
         pure (results ++ [(ii, col)])) in
  (* Returns most frequent values from each fold *)
  let* prediction :=
    lift (rbind (DataFrame results) (λ w,
          rbind (getitem_column (mode_axis1 w) 0) astype_int)) in
  let* _ := set_prediction sample_submission prediction in
  pure sample_submission.

(* ===================================================================== *)
(** ** Majority vote: what the aggregate is compared with *)
(* ===================================================================== *)

(** The predictions the folds give for row position [i], in fold order. *)
Definition votes (h : heap) (fold_submissions : list loc) (i : nat) : list Z :=
  omap (λ r, h !! r ≫= λ df, df_prediction df !! i) fold_submissions.

(** Entry 0 of the sorted modes of row [i] over the columns [cols]. *)
Definition first_mode (cols : list (list Z)) (i : nat) : option Z :=
  head (Series_mode (omap (λ c, c !! i) cols)).

(** [v] is a most frequent value of [s]. *)
Definition is_mode (v : Z) (s : list Z) : Prop :=
  v ∈ s ∧ ∀ w, count s w ≤ count s v.

(** The integers a double holds exactly, every one of them: up to 2^53 in
    absolute value. *)
Definition exact_float64 (z : Z) : Prop := (- 2 ^ 53 ≤ z ≤ 2 ^ 53)%Z.

Global Instance exact_float64_dec z : Decision (exact_float64 z).
Proof. unfold exact_float64. apply _. Defined.

(** The sorted modes of each of the first [n] rows. *)
Definition row_modes (cols : list (list Z)) (n : nat) : list (list Z) :=
  (λ i, Series_mode (row_of cols i)) <$> seq 0 n.

(** What becomes of a mode of an int64 frame on its way out: it passes
    through a double when some row had to be padded. *)
Definition through_float64 (padded : bool) (v : Z) : Z :=
  if padded then float64_to_int64 (round_float64 v) else v.

(* ===================================================================== *)
(** ** What most_frequent_prediction computes *)
(* ===================================================================== *)

(** The table the call builds from the contents of its arguments, with the
    exceptions in the order the body meets them. *)
Definition aggregate (tables : list Submission) : result Submission :=
  match tables with
  | [] => Raise IndexError
  | first :: _ =>
    rbind (rbind (DataFrame (enumerate (df_prediction <$> tables))) (λ w,
           rbind (getitem_column (mode_axis1 w) 0) astype_int))
      (λ prediction,
         if decide (length prediction = length first)
         then Ok (set_column first prediction)
         else Raise ValueError)
  end.

(** The table a run hands back, read through the reference it returns. *)
Definition returned_table (fold_submissions : list loc) (h : heap)
  : result Submission :=
  match most_frequent_prediction fold_submissions h with
  | (Ok r, h') => match h' !! r with Some out => Ok out | None => Raise DanglingRef end
  | (Raise e, _) => Raise e
  end.


(* ===================================================================== *)
(** ** scikit-learn: KFold *)
(* ===================================================================== *)

Module KFold.

Record t : Type := mk { n_splits : nat; shuffle : bool }.

(** [KFold(n_splits=k)]: [shuffle] defaults to False; ValueError unless
    there are at least two splits. *)
Definition init (n_splits : nat) : result t :=
  if decide (n_splits ≤ 1) then Raise ValueError else Ok (mk n_splits false).

(** [indices[start:stop]] *)
Definition slice {A} (l : list A) (start stop : nat) : list A :=
  take (stop - start) (drop start l).

(** [np.full(n_splits, n_samples // n_splits)] with the first
    [n_samples % n_splits] entries incremented. *)
Definition fold_sizes (n_splits n_samples : nat) : list nat :=
  imap (λ i size, if decide (i < n_samples `mod` n_splits) then size + 1 else size)
       (replicate n_splits (n_samples / n_splits)).

(** The loop of [_iter_test_indices]: consecutive slices of [indices]. *)
Fixpoint iter_slices (indices : list nat) (fold_sizes : list nat) (current : nat)
  : list (list nat) :=
  match fold_sizes with
  | [] => []
  | fold_size :: rest =>
      let start := current in
      let stop := current + fold_size in
      slice indices start stop :: iter_slices indices rest stop
  end.

(** [_iter_test_indices]; [rng] is the permutation the random state
    applies when [shuffle] is set. *)
Definition iter_test_indices (kf : t) (rng : list nat → list nat) (n_samples : nat)
  : list (list nat) :=
  let indices := seq 0 n_samples in
  let indices := if shuffle kf then rng indices else indices in
  iter_slices indices (fold_sizes (n_splits kf) n_samples) 0.

(** [mask = np.zeros(n_samples, dtype=bool); mask[test_index] = True] *)
Definition test_mask (n_samples : nat) (test_index : list nat) : list bool :=
  foldl (λ mask i, <[i := true]> mask) (replicate n_samples false) test_index.

(** [indices[mask]] for a boolean mask. *)
Definition select {A} (xs : list A) (mask : list bool) : list A :=
  (filter (λ p, p.2 = true) (zip xs mask)).*1.

(** [split(X)]: the (train, test) index pairs, fold by fold.  ValueError
    when there are more splits than samples.  Python yields the pairs
    lazily; nothing else runs in between, so the list is built at once. *)
Definition split {A} (kf : t) (rng : list nat → list nat) (X : list A)
  : result (list (list nat * list nat)) :=
  let n_samples := length X in
  if decide (n_samples < n_splits kf) then Raise ValueError
  else
    let indices := seq 0 n_samples in
    Ok ((λ test_index,
           let test_mask := test_mask n_samples test_index in
           (select indices (negb <$> test_mask), select indices test_mask))
          <$> iter_test_indices kf rng n_samples).

End KFold.


(** Folds cut from [0..n-1] as consecutive blocks of the given sizes: the
    validation indices are the block, the training indices what lies before
    and after it.  The splitter is compared with this. *)
Fixpoint contiguous_folds (n : nat) (sizes : list nat) (start : nat)
  : list (list nat * list nat) :=
  match sizes with
  | [] => []
  | size :: rest =>
      (seq 0 start ++ seq (start + size) (n - (start + size)), seq start size)
      :: contiguous_folds n rest (start + size)
  end.

(* ===================================================================== *)
(** ** PyTorch Lightning: ModelCheckpoint *)
(* ===================================================================== *)

Module Lightning.

Inductive Mode : Type := Min | Max.

Record ModelCheckpoint : Type := mkModelCheckpoint {
  dirpath : string;
  monitor : string;
  mode : Mode;
  save_weights_only : bool;
  save_top_k : nat;
  filename : string
}.

Definition Qlt_bool (x y : Q) : bool := negb (Qle_bool y x).

(** [monitor_op(current, other)]: [torch.lt] for "min", [torch.gt] for
    "max". *)
Definition monitor_op (m : Mode) (current other : Q) : bool :=
  match m with
  | Min => Qlt_bool current other
  | Max => Qlt_bool other current
  end.

(** The checkpoints on disk, as (epoch, monitored value) in the order
    they were saved ([best_k_models]). *)
Definition Kept : Type := list (nat * Q).

(** [kth_best_model_path]: the kept checkpoint that is worst for the mode
    (the first one on ties, as Python's [max]/[min] over a dict). *)
Definition kth_best (m : Mode) (kept : Kept) : option (nat * Q) :=
  foldl (λ worst c,
           match worst with
           | None => Some c
           | Some b => if monitor_op m b.2 c.2 then Some c else Some b
           end) None kept.

(** One validation epoch: save while fewer than [save_top_k] checkpoints
    are kept; after that save only a value that beats the worst kept one,
    which is deleted. *)
Definition on_validation_end (ck : ModelCheckpoint) (kept : Kept)
    (epoch : nat) (current : Q) : Kept :=
  if decide (length kept < save_top_k ck) then kept ++ [(epoch, current)]
  else match kth_best (mode ck) kept with
       | Some kth =>
           if monitor_op (mode ck) current kth.2
           then filter (λ c, c.1 ≠ kth.1) kept ++ [(epoch, current)]
           else kept
       | None => kept
       end.

(** The checkpoints left after epochs with the given monitored values. *)
Definition retained (ck : ModelCheckpoint) (values : list Q) : Kept :=
  foldl (λ kept '(epoch, current), on_validation_end ck kept epoch current)
        [] (enumerate values).

Record WandbLogger : Type := mkWandbLogger {
  project : string;
  group : string;
  job_type : string;
  name : string;
  save_dir : string;
  log_model : string
}.

End Lightning.

(* ===================================================================== *)
(** ** The world of a run *)
(* ===================================================================== *)

(** The hydra configuration, as far as the script reads it. *)
Record Cfg : Type := mkCfg {
  data_dir : string;
  current_dir : string;
  exp_name : string;
  gpus : nat;
  num_epochs : nat
}.

(** Rows of [train.csv] and [test.csv]. *)
Record TrainRow : Type :=
  mkTrainRow { train_id : string; train_premise : string;
               train_hypothesis : string; label : Z }.
Record TestRow : Type :=
  mkTestRow { test_id : string; test_premise : string; test_hypothesis : string }.

Inductive File : Type :=
  | TrainCsv (rows : list TrainRow)
  | TestCsv (rows : list TestRow)
  | SubmissionCsv (rows : Submission).

(** What a run does to the outside, in order, and one event that is only
    a trace: [most_frequent_prediction_call] marks a call of
    [most_frequent_prediction] with its argument. *)
Inductive Event : Type :=
  | read_csv (path : string)
  | to_csv (path : string)
  | trainer_fit (logger : Lightning.WandbLogger) (checkpointer : Lightning.ModelCheckpoint)
  | trainer_test (logger : Lightning.WandbLogger)
  | wandb_init (project group job_type : string)
  | wandb_save (path : string)
  | wandb_finish
  | most_frequent_prediction_call (fold_submissions : list loc)
  | print (message : string).

Record World : Type := mkWorld {
  objects : heap;
  files : gmap string File;
  log : list Event
}.

Definition emit (e : Event) : prog World unit :=
  modify (λ w, mkWorld (objects w) (files w) (log w ++ [e])).

(** A statement over the store, run in the world. *)
Definition on_objects {A} (m : prog heap A) : prog World A :=
  λ w, let '(r, h) := m (objects w) in (r, mkWorld h (files w) (log w)).

(** [pathlib.PurePosixPath]: a root ("", "/" or "//") and the components
    that are neither empty nor ".". *)
Record Path : Type := mkPath { root : string; parts : list string }.

(** [s.split("/")] *)
Fixpoint split_slash (s : string) : list string :=
  match s with
  | EmptyString => [EmptyString]
  | String c rest =>
      if decide (c = "/"%char) then EmptyString :: split_slash rest
      else match split_slash rest with
           | [] => [String c EmptyString]
           | t :: ts => String c t :: ts
           end
  end.

(** [Path(s)]: one leading slash, or three and more, make the root "/";
    exactly two make it "//". *)
Definition parse_path (s : string) : Path :=
  let root :=
    match s with
    | String "/" (String "/" (String "/" _)) => "/"
    | String "/" (String "/" _) => "//"
    | String "/" _ => "/"
    | _ => ""
    end in
  mkPath root (filter (λ x, x ≠ "" ∧ x ≠ ".") (split_slash s)).

(** [p / name]: an absolute [name] replaces [p]. *)
Definition joinpath (p : Path) (name : string) : Path :=
  let q := parse_path name in
  if decide (root q = "") then mkPath (root p) (parts p ++ parts q) else q.

(** ["/".join(parts)] *)
Fixpoint join_slash (parts : list string) : string :=
  match parts with
  | [] => ""
  | [x] => x
  | x :: rest => x +:+ "/" +:+ join_slash rest
  end.

(** [str(p)] *)
Definition path_str (p : Path) : string :=
  match root p, parts p with
  | EmptyString, [] => "."
  | r, ps => r +:+ join_slash ps
  end.

(** [str(Path(dir) / name)]: the file the operating system is asked for. *)
Definition path_join (dir name : string) : string :=
  path_str (joinpath (parse_path dir) name).

(** [pd.read_csv(path)], one function per table the script reads. *)
Definition read_csv_train (path : string) : prog World (list TrainRow) :=
  let* _ := emit (read_csv path) in
  let* fs := gets files in
  match fs !! path with
  | Some (TrainCsv rows) => pure rows
  | _ => raise FileNotFoundError
  end.

Definition read_csv_test (path : string) : prog World (list TestRow) :=
  let* _ := emit (read_csv path) in
  let* fs := gets files in
  match fs !! path with
  | Some (TestCsv rows) => pure rows
  | _ => raise FileNotFoundError
  end.

Definition read_csv_submission (path : string) : prog World loc :=
  let* _ := emit (read_csv path) in
  let* fs := gets files in
  match fs !! path with
  | Some (SubmissionCsv rows) => on_objects (alloc rows)
  | _ => raise FileNotFoundError
  end.

(** [df.to_csv(path, index=False)] *)
Definition df_to_csv (r : loc) (path : string) : prog World unit :=
  let* df := on_objects (deref r) in
  let* _ := emit (to_csv path) in
  modify (λ w, mkWorld (objects w) (<[path := SubmissionCsv df]> (files w)) (log w)).

(** [df.iloc[positions]]: IndexError on a position out of bounds. *)
Fixpoint iloc {A} (df : list A) (positions : list nat) : result (list A) :=
  match positions with
  | [] => Ok []
  | i :: rest =>
      match df !! i with
      | Some row => rmap (cons row) (iloc df rest)
      | None => Raise IndexError
      end
  end.

(* ===================================================================== *)
(** ** train.py: train_model and train *)
(* ===================================================================== *)

Definition logger (cfg : Cfg) (fold_index : nat) : Lightning.WandbLogger :=
  Lightning.mkWandbLogger
    "contradictory-my-dear-watson" (exp_name cfg) "k-fold training"
    ("fold=" +:+ pretty fold_index)
    (path_join (current_dir cfg) "logs") "all".

Definition checkpointer (cfg : Cfg) (fold_index : nat) : Lightning.ModelCheckpoint :=
  Lightning.mkModelCheckpoint
    (path_join (current_dir cfg) "models")
    "val/acc_epoch"
    Lightning.Min
    true
    1
    ("bert_{epoch}-{val_acc_epoch:.02f}_fold=" +:+ pretty fold_index).

Section orchestration.
(** The collaborators outside [train.py]: the model class with its data
    loader and the Lightning trainer.  [fit] stands for
    [BertModel(cfg)], [ClassificationDataLoader(...)] and [trainer.fit];
    [test] for the predictions [trainer.test] computes on the test
    table; [rng] for the global random state. *)
Variable Model : Type.
Variable fit : Cfg → Lightning.WandbLogger → Lightning.ModelCheckpoint →
               list TrainRow → list TrainRow → result Model.
Variable test : Model → list TestRow → result Submission.
Variable rng : list nat → list nat.

(** Modelled from the spec: the test step lives in [src/model.py], which
    is not among the sources; it writes the predictions for the test table
    to [submission.csv] under [current_dir] (spec 4.2 step 6, and the
    comment above the call in [train_model]). *)
Definition trainer_test_step (cfg : Cfg) (fold_index : nat) (model : Model)
    (test_data : list TestRow) : prog World unit :=
  let* _ := emit (trainer_test (logger cfg fold_index)) in
  let* predictions := lift (test model test_data) in
  modify (λ w, mkWorld (objects w)
                 (<[path_join (current_dir cfg) "submission.csv"
                      := SubmissionCsv predictions]> (files w))
                 (log w)).

Definition train_model (cfg : Cfg) (train_data val_data : list TrainRow)
    (test_data : list TestRow) (fold_index : nat) : prog World loc :=
  let current_dir := current_dir cfg in
  let logger := logger cfg fold_index in
  let checkpointer := checkpointer cfg fold_index in
  let* _ := emit (trainer_fit logger checkpointer) in
  let* model := lift (fit cfg logger checkpointer train_data val_data) in
  (* This will generate predictions for test.csv and save them to
     submission.csv file *)
  let* _ := trainer_test_step cfg fold_index model test_data in
  let* _ := emit wandb_finish in
  let* fold_submission :=
    read_csv_submission (path_join current_dir "submission.csv") in
  pure fold_submission.

Definition train (cfg : Cfg) : prog World unit :=
  let data_dir := data_dir cfg in
  let current_dir := current_dir cfg in
  let* train_df := read_csv_train (path_join data_dir "train.csv") in
  let* test_df := read_csv_test (path_join data_dir "test.csv") in
  let* folds := lift (KFold.init 5) in
  let* splits := lift (KFold.split folds rng train_df) in
  let* predictions :=
    for_each (enumerate splits) []
      (λ predictions '(ii, (train_indices, val_indices)),
         let* train_data := lift (iloc train_df train_indices) in
         let* val_data := lift (iloc train_df val_indices) in
         let* test_predictions :=
           train_model cfg train_data val_data test_df ii in
         pure (predictions ++ [test_predictions])) in
  (* trace of the call on the next line *)
  let* _ := emit (most_frequent_prediction_call predictions) in
  let* final_submission := on_objects (most_frequent_prediction predictions) in
  let* _ := df_to_csv final_submission (path_join current_dir "submission.csv") in
  (* Saving merged final predictions to wandb *)
  let* _ := emit (wandb_init "contradictory-my-dear-watson" (exp_name cfg)
                    "save final prediction") in
  let* _ := emit (wandb_save (path_join current_dir "submission.csv")) in
  let* _ := emit wandb_finish in
  emit (print "training is finished!").
End orchestration.

(** What one call of [train_model] on fold [fold_index] does to the
    outside, in order. *)
Definition fold_events (cfg : Cfg) (fold_index : nat) : list Event :=
  [ trainer_fit (logger cfg fold_index) (checkpointer cfg fold_index);
    trainer_test (logger cfg fold_index);
    wandb_finish;
    read_csv (path_join (current_dir cfg) "submission.csv") ].

(** The rows of [df] at the given positions. *)
Definition rows_at {A} (df : list A) (positions : list nat) : list A :=
  omap (λ i, df !! i) positions.

(** The events of the closing steps of [train]: writing the merged
    submission, handing it to the tracker, the last message. *)
Definition final_step (ev : Event) : Prop :=
  match ev with
  | to_csv _ | wandb_init _ _ _ | wandb_save _ | print _ => True
  | _ => False
  end.

(** [w'] comes from [w] by adding objects, rewriting the table at [path]
    and appending events, and by nothing else. *)
Definition extends (path : string) (w w' : World) : Prop :=
  (∀ x df, objects w !! x = Some df → objects w' !! x = Some df)
  ∧ (∀ p, p ≠ path → files w' !! p = files w !! p)
  ∧ ∃ events, log w' = log w ++ events.

(** Every run of [m] from a world with [Pre] extends the world, and a run
    that returns [a] ends in a world with [Post a]. *)
Definition frames {A} (path : string) (Pre : World → Prop) (m : prog World A)
    (Post : A → World → Prop) : Prop :=
  ∀ w res w', Pre w → m w = (res, w') →
    extends path w w' ∧ ∀ a, res = Ok a → Post a w'.

(** The references of [rs] point to objects of [w]. *)
Definition live (rs : list loc) (w : World) : Prop :=
  Forall (λ r, is_Some (objects w !! r)) rs.

(* ===================================================================== *)
(** ** Sample stores *)
(* ===================================================================== *)

(** A submission from its two columns. *)
Definition table (ids : list string) (predictions : list Z) : Submission :=
  zip_with mkRow ids predictions.

(** Three folds over three test rows, predictions [[0,0,1],[0,1,1],[1,1,1]]. *)
Definition three_folds : heap :=
  list_to_map
    [ (0, table ["r0"; "r1"; "r2"] [0; 0; 1]%Z);
      (1, table ["r0"; "r1"; "r2"] [0; 1; 1]%Z);
      (2, table ["r0"; "r1"; "r2"] [1; 1; 1]%Z) ].





(* ===================================================================== *)
(** ** A sample run *)
(* ===================================================================== *)

Definition sample_cfg : Cfg := mkCfg "data" "out" "baseline" 0 1.

Definition sample_train : list TrainRow :=
  [ mkTrainRow "a" "p0" "h0" 0; mkTrainRow "b" "p1" "h1" 1;
    mkTrainRow "c" "p2" "h2" 2; mkTrainRow "d" "p3" "h3" 0;
    mkTrainRow "e" "p4" "h4" 1; mkTrainRow "f" "p5" "h5" 2 ].

Definition sample_test : list TestRow :=
  [ mkTestRow "t0" "q0" "g0"; mkTestRow "t1" "q1" "g1" ].

(** A stand-in trainer: the model remembers the label of its first
    validation row and predicts it for every test row. *)
Definition sample_fit (_ : Cfg) (_ : Lightning.WandbLogger)
    (_ : Lightning.ModelCheckpoint) (_ val_data : list TrainRow) : result Z :=
  Ok (default 0%Z (label <$> head val_data)).

Definition sample_predict (model : Z) (test_data : list TestRow)
  : result (list Row) :=
  Ok ((λ row, mkRow (test_id row) model) <$> test_data).

Definition sample_world : World :=
  mkWorld ∅
    (list_to_map [ ("data/train.csv", TrainCsv sample_train);
                   ("data/test.csv", TestCsv sample_test) ])
    [].

(** Two folds over two test rows whose files list the rows under different
    ids. *)
Definition misaligned_folds : heap :=
  list_to_map
    [ (0, table ["r0"; "r1"] [1; 2]%Z);
      (1, table ["r1"; "r0"] [1; 0]%Z) ].

(** Two folds with two and three rows. *)
Definition ragged_folds : heap :=
  list_to_map
    [ (0, table ["r0"; "r1"] [1; 2]%Z);
      (1, table ["r0"; "r1"; "r2"] [1; 0; 2]%Z) ].

(** A trainer that runs out of memory on the fold whose run is named
    "fold=2", and a world with three training rows only. *)
Definition failing_fit (cfg : Cfg) (logger : Lightning.WandbLogger)
    (ck : Lightning.ModelCheckpoint) (train_data val_data : list TrainRow)
  : result Z :=
  if decide (Lightning.name logger = "fold=2") then Raise ValueError
  else sample_fit cfg logger ck train_data val_data.

Definition small_world : World :=
  mkWorld ∅
    (list_to_map [ ("data/train.csv", TrainCsv (take 3 sample_train));
                   ("data/test.csv", TestCsv sample_test) ])
    [].
(* ===================================================================== *)
(** ** Series.mode *)
(* ===================================================================== *)

Section series_mode.
Implicit Types (s : list Z) (v w : Z).

Lemma count_pos s v : v ∈ s ↔ 0 < count s v.
Proof. unfold count. rewrite list_elem_of_In. apply count_occ_In. Qed.

Lemma count_le_max_count s w : count s w ≤ max_count s.
Proof.
  destruct (decide (w ∈ s)) as [Hin|Hout].
  - apply max_list_elem_of_le, list_elem_of_fmap. eauto.
  - apply Nat.le_trans with 0; [|lia].
    destruct (decide (0 < count s w)) as [Hp|Hp]; [|lia].
    by apply count_pos in Hp.
Qed.

Lemma elem_of_Series_mode s v :
  v ∈ Series_mode s ↔ v ∈ s ∧ count s v = max_count s.
Proof.
  unfold Series_mode. rewrite merge_sort_Permutation.
  rewrite elem_of_remove_dups, list_elem_of_filter. tauto.
Qed.

Lemma Series_mode_is_mode s v : v ∈ Series_mode s → is_mode v s.
Proof.
  intros [Hin Hc]%elem_of_Series_mode. split; [done|].
  intros w. rewrite Hc. apply count_le_max_count.
Qed.

Lemma is_mode_Series_mode s v : is_mode v s → v ∈ Series_mode s.
Proof.
  intros [Hin Hmax]. apply elem_of_Series_mode. split; [done|].
  apply Nat.le_antisymm; [apply count_le_max_count|].
  destruct s as [|x s']; [by apply elem_of_nil in Hin|].
  assert (Hm : max_count (x :: s') ∈ count (x :: s') <$> (x :: s'))
    by (by apply max_list_elem_of).
  apply list_elem_of_fmap in Hm as (w & -> & _). apply Hmax.
Qed.

Lemma Series_mode_nonempty s : s ≠ [] → Series_mode s ≠ [].
Proof.
  intros Hne Hnil.
  assert (Hm : max_count s ∈ count s <$> s).
  { apply max_list_elem_of. by destruct s. }
  apply list_elem_of_fmap in Hm as (w & Hw & Hin).
  assert (Hmem : w ∈ Series_mode s) by (by apply elem_of_Series_mode).
  rewrite Hnil in Hmem. by apply elem_of_nil in Hmem.
Qed.

Lemma Series_mode_sorted s : StronglySorted Z.le (Series_mode s).
Proof. apply (StronglySorted_merge_sort Z.le). Qed.

(** Entry 0 of the sorted modes is below every other mode. *)
Lemma head_Series_mode_least s v w :
  head (Series_mode s) = Some v → w ∈ Series_mode s → (v ≤ w)%Z.
Proof.
  intros Hhd Hw. pose proof (Series_mode_sorted s) as Hs.
  destruct (Series_mode s) as [|x l]; [done|].
  injection Hhd as ->. apply StronglySorted_inv in Hs as [_ Hall].
  apply elem_of_cons in Hw as [->|Hw]; [lia|].
  by eapply Forall_forall in Hall.
Qed.

Lemma head_Series_mode_elem s v :
  head (Series_mode s) = Some v → v ∈ Series_mode s.
Proof. destruct (Series_mode s); [done|]. intros [= ->]. by left. Qed.
End series_mode.

(* ===================================================================== *)
(** ** The pandas pipeline on columns of one length *)
(* ===================================================================== *)

Lemma pad_head (m : nat) (l : list Z) : 0 < m → mjoin (pad m l !! 0) = head l.
Proof.
  intros Hm. unfold pad. destruct l as [|x l]; [|done].
  simpl. destruct m; [lia|done].
Qed.

Lemma list_find_seq_0 (m : nat) :
  0 < m → list_find (λ c, c = 0) (seq 0 m) = Some (0, 0).
Proof. destruct m; [lia|done]. Qed.

Lemma enumerate_fst {A} (xs : list A) : (enumerate xs).*1 = seq 0 (length xs).
Proof. unfold enumerate. apply fst_zip. by rewrite length_seq. Qed.

Lemma enumerate_snd {A} (xs : list A) : (enumerate xs).*2 = xs.
Proof. unfold enumerate. apply snd_zip. by rewrite length_seq. Qed.

Section pipeline.
Implicit Types (cols : list (list Z)) (n i : nat).

Lemma DataFrame_uniform cols n :
  cols ≠ [] → Forall (λ c, length c = n) cols →
  DataFrame (enumerate cols) = Ok (mkWide (seq 0 (length cols)) n cols).
Proof.
  intros Hne Hall. unfold DataFrame. rewrite enumerate_snd, enumerate_fst.
  assert (Hn : default 0 (head (length <$> cols)) = n).
  { destruct cols as [|c cs]; [done|]. by apply Forall_cons in Hall as [? _]. }
  rewrite Hn. by rewrite decide_True.
Qed.

Lemma row_nonempty cols n i :
  cols ≠ [] → Forall (λ c, length c = n) cols → i < n →
  omap (λ c, c !! i) cols ≠ [].
Proof.
  intros Hne Hall Hi. destruct cols as [|c cs]; [done|].
  apply Forall_cons in Hall as [Hc _].
  destruct (lookup_lt_is_Some_2 c i) as [x Hx]; [lia|].
  simpl. by rewrite Hx.
Qed.

Lemma infer_dtype_int64 (c : list Z) :
  c ≠ [] → Forall in_int64 c → infer_dtype c = int64.
Proof.
  intros Hne Hall. destruct c as [|x c]; [done|].
  unfold infer_dtype. by rewrite decide_True.
Qed.

Lemma frame_dtype_int64 cols n :
  0 < n → Forall (λ c, length c = n) cols → Forall (Forall in_int64) cols →
  frame_dtype cols = int64.
Proof.
  intros Hn Hlen Hall.
  assert (Hi : Forall (λ c, infer_dtype c = int64) cols).
  { apply Forall_forall. intros c Hc. apply infer_dtype_int64.
    - rewrite Forall_forall in Hlen. specialize (Hlen c Hc).
      destruct c; simpl in Hlen; [lia|done].
    - by eapply Forall_forall in Hall. }
  unfold frame_dtype. rewrite decide_False, decide_True; [done|done|].
  intros (c & Hc & Ho)%Exists_exists.
  rewrite Forall_forall in Hi. by rewrite (Hi c Hc) in Ho.
Qed.

Lemma row_modes_nonempty cols n :
  cols ≠ [] → Forall (λ c, length c = n) cols →
  Forall (λ l, l ≠ []) (row_modes cols n).
Proof.
  intros Hne Hall. apply Forall_fmap, Forall_forall.
  intros i Hi%elem_of_seq. simpl.
  apply Series_mode_nonempty, (row_nonempty _ n); [done|done|lia].
Qed.

Lemma row_modes_width cols n :
  cols ≠ [] → Forall (λ c, length c = n) cols → 0 < n →
  0 < max_list (length <$> row_modes cols n).
Proof.
  intros Hne Hall Hn.
  pose proof (row_modes_nonempty _ _ Hne Hall) as Hms.
  destruct n as [|n']; [lia|].
  unfold row_modes in *. cbn [seq fmap list_fmap] in *.
  apply Forall_cons in Hms as [Hm _].
  destruct (Series_mode (row_of cols 0)); [done|]. simpl. lia.
Qed.

(** Column 0 of the padded rows holds entry 0 of every row. *)
Lemma column0_pad (m : nat) (ms : list (list Z)) :
  0 < m → Forall (λ l, l ≠ []) ms →
  (λ r, mjoin (r !! 0)) <$> (pad m <$> ms)
  = Some <$> ((λ l, default 0%Z (head l)) <$> ms).
Proof.
  intros Hm Hms. induction Hms as [|l ms Hl _ IH]; [done|].
  rewrite !fmap_cons, IH. f_equal.
  rewrite pad_head by done. by destruct l.
Qed.

Lemma Forall_is_Some_fmap {A} (xs : list A) : Forall is_Some (Some <$> xs).
Proof. apply Forall_fmap, Forall_forall. intros x _. by eexists. Qed.

Lemma omap_id_fmap_Some {A} (xs : list A) : omap id (Some <$> xs) = xs.
Proof.
  induction xs as [|x xs IH]; [done|].
  rewrite fmap_cons. cbn [omap list_omap id]. by rewrite IH.
Qed.

Lemma first_mode_row_modes cols n :
  (λ l, default 0%Z (head l)) <$> row_modes cols n
  = (λ i, default 0%Z (first_mode cols i)) <$> seq 0 n.
Proof. unfold row_modes. by rewrite <- list_fmap_compose. Qed.

(** The call chain [DataFrame(results).mode(axis=1)[0].astype("int")] on
    int64 columns of one length returns, for each row, entry 0 of that
    row's sorted modes; when some row has fewer modes than another, every
    entry has been through a double. *)
Lemma pipeline_int64 cols n :
  cols ≠ [] → Forall (λ c, length c = n) cols → Forall (Forall in_int64) cols →
  rbind (DataFrame (enumerate cols)) (λ w,
    rbind (getitem_column (mode_axis1 w) 0) astype_int)
  = Ok ((λ i, through_float64 (bool_decide (ragged (row_modes cols n)))
                (default 0%Z (first_mode cols i))) <$> seq 0 n).
Proof.
  intros Hne Hall Hint. rewrite (DataFrame_uniform _ n) by done.
  cbn [rbind]. unfold mode_axis1. cbn [nrows data columns].
  destruct (decide (n = 0)) as [->|Hn].
  { unfold getitem_column. cbn [mcolumns mdtype mrows].
    rewrite list_find_seq_0 by (destruct cols; [done|simpl; lia]). done. }
  assert (Hpos : 0 < n) by lia.
  destruct n as [|n'] eqn:En; [done|]. rewrite <- En in *. clear En n'.
  cbn zeta. unfold frame_values.
  rewrite (frame_dtype_int64 _ n) by done.
  fold (row_modes cols n).
  pose proof (row_modes_nonempty _ _ Hne Hall) as Hms.
  pose proof (row_modes_width _ _ Hne Hall Hpos) as Hm.
  assert (Hrhs : ∀ b,
    (λ i, through_float64 b (default 0%Z (first_mode cols i))) <$> seq 0 n
    = through_float64 b <$> ((λ l, default 0%Z (head l)) <$> row_modes cols n)).
  { intros b. by rewrite first_mode_row_modes, <- list_fmap_compose. }
  rewrite Hrhs. clear Hrhs.
  set (ms := row_modes cols n) in *. clearbody ms.
  set (m := max_list (length <$> ms)) in *. clearbody m.
  destruct (decide (ragged ms)) as [Hr|Hr].
  - rewrite bool_decide_eq_true_2 by done.
    unfold getitem_column. cbn [mcolumns mdtype mrows].
    rewrite (list_find_seq_0 _ Hm). cbn [rbind].
    rewrite column0_pad; [|done|].
    2:{ apply Forall_fmap. eapply Forall_impl; [exact Hms|].
        intros l Hl. simpl. by destruct l. }
    unfold astype_int. cbn [sdtype svalues].
    rewrite decide_True by apply Forall_is_Some_fmap.
    rewrite omap_id_fmap_Some. f_equal.
    rewrite <- !list_fmap_compose. apply Forall_fmap_ext.
    eapply Forall_impl; [exact Hms|]. intros l Hl. simpl. by destruct l.
  - rewrite bool_decide_eq_false_2 by done.
    unfold getitem_column. cbn [mcolumns mdtype mrows].
    rewrite (list_find_seq_0 _ Hm). cbn [rbind].
    rewrite column0_pad by done.
    unfold astype_int. cbn [sdtype svalues].
    rewrite decide_True by apply Forall_is_Some_fmap.
    rewrite omap_id_fmap_Some. f_equal.
Qed.

Lemma round_float64_exact (v : Z) : exact_float64 v → round_float64 v = v.
Proof.
  intros Hv. unfold round_float64. cbn zeta.
  destruct (Z.abs v <? 2 ^ 53)%Z eqn:Hlt; [done|].
  apply Z.ltb_ge in Hlt. unfold exact_float64 in Hv.
  assert (v = 2 ^ 53 ∨ v = - 2 ^ 53)%Z as [->| ->] by lia; by vm_compute.
Qed.

Lemma exact_float64_in_int64 (v : Z) : exact_float64 v → in_int64 v.
Proof. unfold exact_float64, in_int64. lia. Qed.

Lemma through_float64_exact (padded : bool) (v : Z) :
  exact_float64 v → through_float64 padded v = v.
Proof.
  intros Hv. unfold through_float64. destruct padded; [|done].
  rewrite round_float64_exact by done.
  unfold float64_to_int64. rewrite decide_True; [done|].
  by apply exact_float64_in_int64.
Qed.

End pipeline.

(* ===================================================================== *)
(** ** The run of most_frequent_prediction *)
(* ===================================================================== *)

Section run.
Implicit Types (h : heap) (fs : list loc) (tables : list Submission).

Lemma collect_predictions h fs tables a acc :
  mapM (h !!.) fs = Some tables →
  for_each (zip (seq a (length fs)) fs) acc
    (λ results '(ii, df),
       let* col := prediction_to_list df in
       pure (results ++ [(ii, col)])) h
  = (Ok (acc ++ zip (seq a (length fs)) (df_prediction <$> tables)), h).
Proof.
  intros Hm%mapM_Some_1. revert a acc.
  induction Hm as [|r t fs tables Hr _ IH]; intros a acc.
  - simpl. unfold pure. by rewrite app_nil_r.
  - cbn [length seq zip zip_with for_each].
    unfold bind at 1. unfold bind at 1. unfold prediction_to_list, bind, deref.
    rewrite Hr. unfold pure at 1. unfold pure at 1.
    specialize (IH (S a) (acc ++ [(a, df_prediction t)])).
    unfold prediction_to_list, bind, deref in IH. rewrite IH.
    simpl. by rewrite <- app_assoc.
Qed.

Lemma mapM_lookup_insert_fresh h fs df :
  Forall (λ r, is_Some (h !! r)) fs →
  mapM (<[fresh (dom h) := df]> h !!.) fs = mapM (h !!.) fs.
Proof.
  intros Hlive. apply Forall_mapM_ext. eapply Forall_impl; [exact Hlive|].
  intros r Hr. simpl. apply lookup_insert_ne. intros <-.
  apply elem_of_dom in Hr. by apply is_fresh in Hr.
Qed.

(** The run as one equation.  The store only changes at one new
    reference: it holds the aggregate, or, when an exception comes after
    the copy was made, the copy. *)
Lemma most_frequent_prediction_run h fs tables :
  mapM (h !!.) fs = Some tables →
  most_frequent_prediction fs h
  = match aggregate tables with
    | Ok out => (Ok (fresh (dom h)), <[fresh (dom h) := out]> h)
    | Raise e =>
        (Raise e, match tables with
                  | [] => h
                  | first :: _ => <[fresh (dom h) := first]> h
                  end)
    end.
Proof.
  intros Hm. unfold most_frequent_prediction.
  destruct fs as [|r0 fs]; [by injection Hm as <-|].
  assert (Hlive : Forall (λ x, is_Some (h !! x)) (r0 :: fs)).
  { apply (mapM_is_Some_1 (h !!.)). by rewrite Hm. }
  assert (Hlen : length (r0 :: fs) = length (df_prediction <$> tables)).
  { rewrite length_fmap. by eapply length_mapM. }
  assert (∃ t0 ts, tables = t0 :: ts ∧ h !! r0 = Some t0) as (t0 & ts & -> & Hr0).
  { apply mapM_Some_1 in Hm. inversion Hm; subst. eauto. }
  unfold bind at 1. cbn [list_getitem lookup list_lookup]. unfold pure at 1.
  unfold bind at 1. unfold copy, bind at 1, deref. rewrite Hr0.
  unfold alloc. set (r := fresh (dom h)).
  unfold bind at 1. unfold enumerate.
  subst r. rewrite (collect_predictions _ _ (t0 :: ts))
    by (by rewrite mapM_lookup_insert_fresh).
  rewrite app_nil_l, Hlen. fold (enumerate (df_prediction <$> t0 :: ts)).
  unfold aggregate, bind at 1, lift.
  destruct (rbind (DataFrame _) _) as [prediction|e]; [|done].
  cbn [rbind]. unfold bind at 1. unfold set_prediction, bind at 1, deref.
  rewrite lookup_insert_eq.
  destruct (decide (length prediction = length t0)); [|done].
  unfold modify, pure. by rewrite insert_insert_eq.
Qed.
End run.

(* ===================================================================== *)
(** ** most_frequent_prediction on fold submissions with the same ids *)
(* ===================================================================== *)

Section aggregate_uniform.
Implicit Types (h : heap) (fs : list loc) (tables : list Submission).

Lemma set_column_id (df : Submission) (values : list Z) :
  length values = length df → df_id (set_column df values) = df_id df.
Proof.
  unfold df_id, set_column. revert values.
  induction df as [|row df IH]; intros [|v values] Hlen; try done.
  simpl in *. f_equal. apply IH. lia.
Qed.

Lemma set_column_prediction (df : Submission) (values : list Z) :
  length values = length df → df_prediction (set_column df values) = values.
Proof.
  unfold df_prediction, set_column. revert values.
  induction df as [|row df IH]; intros [|v values] Hlen; try done.
  simpl in *. f_equal. apply IH. lia.
Qed.

Lemma votes_columns h fs tables i :
  mapM (h !!.) fs = Some tables →
  votes h fs i = omap (λ c, c !! i) (df_prediction <$> tables).
Proof.
  intros Hm%mapM_Some_1. unfold votes.
  induction Hm as [|r t fs tables Hr _ IH]; [done|].
  cbn [omap list_omap fmap list_fmap]. rewrite Hr. simpl.
  fold (df_prediction <$> tables). by rewrite <- IH.
Qed.

Lemma lookup_tables h fs (P : list Row → Prop) :
  (∀ r, r ∈ fs → ∃ df, h !! r = Some df ∧ P df) →
  ∃ tables, mapM (h !!.) fs = Some tables ∧ Forall P tables.
Proof.
  induction fs as [|r fs IH]; intros Hall; [by exists []|].
  destruct (Hall r) as (t & Hr & Ht); [by left|].
  destruct IH as (ts & Hm & Hts); [intros x Hx; apply Hall; by right|].
  exists (t :: ts). split; [|by constructor].
  apply mapM_Some_2. constructor; [done|]. by apply mapM_Some_1.
Qed.

Lemma length_df_id (df : list Row) : length (df_id df) = length df.
Proof. unfold df_id. by rewrite length_fmap. Qed.

Lemma length_df_prediction (df : list Row) : length (df_prediction df) = length df.
Proof. unfold df_prediction. by rewrite length_fmap. Qed.

Lemma votes_elem h fs i v :
  v ∈ votes h fs i →
  ∃ r df, r ∈ fs ∧ h !! r = Some df ∧ df_prediction df !! i = Some v.
Proof.
  unfold votes. intros (r & Hr & Hv)%list_elem_of_omap.
  destruct (h !! r) as [df|] eqn:Hdf; [|done]. by exists r, df.
Qed.

(** The modes of the votes at each of the first [n] positions. *)
Lemma row_modes_votes h fs tables n :
  mapM (h !!.) fs = Some tables →
  row_modes (df_prediction <$> tables) n
  = (λ i, Series_mode (votes h fs i)) <$> seq 0 n.
Proof.
  intros Hm. unfold row_modes, row_of. apply list_fmap_ext.
  intros _ i _. by rewrite (votes_columns _ _ _ _ Hm).
Qed.

(** Fold submissions of one length whose predictions are int64 aggregate,
    whatever their ids: the result takes the ids of the first table and,
    row by row, entry 0 of the sorted modes of the votes at that position,
    passed through a double when two positions differ in their number of
    modes. *)
Lemma most_frequent_prediction_int64 h fs n :
  fs ≠ [] →
  (∀ r, r ∈ fs → ∃ df, h !! r = Some df ∧ length df = n) →
  (∀ r df, r ∈ fs → h !! r = Some df → Forall in_int64 (df_prediction df)) →
  ∃ r0 first out,
    fs !! 0 = Some r0 ∧ h !! r0 = Some first
    ∧ most_frequent_prediction fs h
      = (Ok (fresh (dom h)), <[fresh (dom h) := out]> h)
    ∧ df_id out = df_id first
    ∧ df_prediction out
      = (λ i, through_float64
                (bool_decide (ragged ((λ i, Series_mode (votes h fs i)) <$> seq 0 n)))
                (default 0%Z (head (Series_mode (votes h fs i))))) <$> seq 0 n.
Proof.
  intros Hne Hall Hint.
  destruct (lookup_tables h fs
              (λ df, length df = n ∧ Forall in_int64 (df_prediction df)))
    as (tables & Hm & Hts).
  { intros r Hr. destruct (Hall r Hr) as (df & Hdf & Hlen).
    exists df. split; [done|]. split; [done|]. by eapply Hint. }
  assert (Hlens : Forall (λ c, length c = n) (df_prediction <$> tables)).
  { apply Forall_fmap. eapply Forall_impl; [exact Hts|].
    intros t [<- _]. unfold compose. apply length_df_prediction. }
  assert (Hints : Forall (Forall in_int64) (df_prediction <$> tables)).
  { apply Forall_fmap. eapply Forall_impl; [exact Hts|]. by intros t [_ ?]. }
  destruct fs as [|r0 fs']; [done|]. destruct tables as [|t0 ts].
  { by apply length_mapM in Hm. }
  pose proof (pipeline_int64 (df_prediction <$> t0 :: ts) n) as Hrun.
  rewrite (row_modes_votes _ _ _ _ Hm) in Hrun.
  specialize (Hrun ltac:(done) Hlens Hints).
  set (vs := (λ i, through_float64 _ (default 0%Z (first_mode _ i))) <$> seq 0 n)
    in Hrun.
  assert (Hvlen : length vs = length t0).
  { subst vs. rewrite length_fmap, length_seq.
    apply Forall_cons in Hts as [[Hl0 _] _]. lia. }
  assert (Hr0 : h !! r0 = Some t0).
  { apply mapM_Some_1 in Hm. by inversion Hm. }
  exists r0, t0, (set_column t0 vs). split; [done|]. split; [done|].
  split; [|split].
  - rewrite (most_frequent_prediction_run _ _ _ Hm). unfold aggregate.
    rewrite Hrun. cbn [rbind]. by rewrite decide_True.
  - by apply set_column_id.
  - rewrite set_column_prediction by done. subst vs.
    apply list_fmap_ext. intros _ i _. unfold first_mode.
    by rewrite (votes_columns _ _ _ _ Hm).
Qed.

(** When the predictions are integers a double holds exactly, every entry
    is entry 0 of the sorted modes as it is. *)
Lemma most_frequent_prediction_same_length h fs n :
  fs ≠ [] →
  (∀ r, r ∈ fs → ∃ df, h !! r = Some df ∧ length df = n) →
  (∀ r df, r ∈ fs → h !! r = Some df → Forall exact_float64 (df_prediction df)) →
  ∃ r0 first out,
    fs !! 0 = Some r0 ∧ h !! r0 = Some first
    ∧ most_frequent_prediction fs h
      = (Ok (fresh (dom h)), <[fresh (dom h) := out]> h)
    ∧ df_id out = df_id first
    ∧ ∀ i, i < n →
         ∃ v, df_prediction out !! i = Some v
              ∧ head (Series_mode (votes h fs i)) = Some v.
Proof.
  intros Hne Hall Hex.
  destruct (most_frequent_prediction_int64 h fs n Hne Hall)
    as (r0 & first & out & Hr0 & Hfirst & Hrun & Hid & Hout).
  { intros r df Hr Hdf. eapply Forall_impl; [by eapply Hex|].
    apply exact_float64_in_int64. }
  exists r0, first, out. repeat (split; [done|]).
  intros i Hi. rewrite Hout, list_lookup_fmap, lookup_seq_lt by done.
  cbn [fmap option_fmap option_map]. change (0 + i) with i.
  assert (Hvotes : votes h fs i ≠ []).
  { destruct (Hall r0) as (df & Hdf & Hlen); [by eapply list_elem_of_lookup_2|].
    destruct fs as [|r fs']; [done|]. injection Hr0 as ->.
    unfold votes. cbn [omap list_omap]. rewrite Hdf. cbn [mbind option_bind].
    destruct (lookup_lt_is_Some_2 (df_prediction df) i) as [x ->]; [|done].
    rewrite length_df_prediction. lia. }
  apply Series_mode_nonempty in Hvotes.
  destruct (Series_mode (votes h fs i)) as [|v l] eqn:Hmodes; [done|].
  exists v. split; [|done]. cbn [head default]. f_equal.
  apply through_float64_exact.
  assert (Hv : v ∈ votes h fs i).
  { apply (elem_of_Series_mode (votes h fs i) v). rewrite Hmodes. by left. }
  apply votes_elem in Hv as (r & df & Hr & Hdf & Hv).
  specialize (Hex r df Hr Hdf). rewrite Forall_forall in Hex.
  apply Hex. by eapply list_elem_of_lookup_2.
Qed.

End aggregate_uniform.

Lemma returned_table_Ok h fs r out :
  most_frequent_prediction fs h = (Ok r, <[r := out]> h) →
  returned_table fs h = Ok out.
Proof. intros Hrun. unfold returned_table. by rewrite Hrun, lookup_insert_eq. Qed.

Lemma elem_of_two {A} (P : A → Prop) (a b : A) :
  P a → P b → ∀ x, x ∈ [a; b] → P x.
Proof.
  intros Ha Hb x Hx. apply elem_of_cons in Hx as [->|Hx]; [done|].
  apply elem_of_cons in Hx as [->|Hx]; [done|]. by apply elem_of_nil in Hx.
Qed.

Lemma elem_of_three {A} (P : A → Prop) (a b c : A) :
  P a → P b → P c → ∀ x, x ∈ [a; b; c] → P x.
Proof.
  intros Ha Hb Hc x Hx. apply elem_of_cons in Hx as [->|Hx]; [done|].
  by apply (elem_of_two P b c).
Qed.











(* ===================================================================== *)
(** ** Frame, repeated runs and the empty list *)
(* ===================================================================== *)

Section frame.
Implicit Types (h : heap) (fs : list loc) (tables : list Submission).

Lemma live_tables h fs :
  (∀ r, r ∈ fs → is_Some (h !! r)) → ∃ tables, mapM (h !!.) fs = Some tables.
Proof.
  intros Hlive. apply (mapM_is_Some_2 (h !!.)), Forall_forall.
  intros r Hr. by apply Hlive.
Qed.

Lemma aggregate_Ok tables out :
  aggregate tables = Ok out →
  ∃ first rest, tables = first :: rest ∧ df_id out = df_id first.
Proof.
  unfold aggregate. destruct tables as [|first rest]; [done|].
  destruct (rbind (DataFrame _) _) as [prediction|e]; [|done].
  cbn [rbind]. destruct (decide _) as [Hlen|]; [|done].
  intros [= <-]. exists first, rest. split; [done|]. by apply set_column_id.
Qed.

(** After a run every object of the old store is where and what it was. *)
Lemma run_preserves h fs tables res h' :
  mapM (h !!.) fs = Some tables →
  most_frequent_prediction fs h = (res, h') →
  ∀ x df, h !! x = Some df → h' !! x = Some df.
Proof.
  intros Hm Hrun x df Hx.
  rewrite (most_frequent_prediction_run _ _ _ Hm) in Hrun.
  assert (Hfresh : fresh (dom h) ≠ x).
  { intros <-. apply (is_fresh (dom h)), elem_of_dom. by eexists. }
  destruct (aggregate tables) as [out|e]; injection Hrun as <- <-.
  - by rewrite lookup_insert_ne.
  - destruct tables; [done|]. by rewrite lookup_insert_ne.
Qed.

Lemma returned_table_aggregate h fs tables :
  mapM (h !!.) fs = Some tables → returned_table fs h = aggregate tables.
Proof.
  intros Hm. unfold returned_table.
  rewrite (most_frequent_prediction_run _ _ _ Hm).
  destruct (aggregate tables); [|done]. by rewrite lookup_insert_eq.
Qed.
End frame.

(** C7. Running most_frequent_prediction a second time on the same list, in
    the store the first run left behind, hands back the same table as the
    first run (or raises the same exception); what the table serialises to
    is therefore the same too, whatever the serialiser. *)
Theorem most_frequent_prediction_rerun
  (h : heap) (fold_submissions : list loc) (res : result loc) (h' : heap) :
  (∀ r, r ∈ fold_submissions → is_Some (h !! r)) →
  most_frequent_prediction fold_submissions h = (res, h') →
  returned_table fold_submissions h' = returned_table fold_submissions h
  ∧ ∀ (bytes : Type) (to_csv : Submission → bytes),
      rmap to_csv (returned_table fold_submissions h')
      = rmap to_csv (returned_table fold_submissions h).
Proof.
  intros Hlive Hrun.
  destruct (live_tables _ _ Hlive) as [tables Hm].
  assert (Hm' : mapM (h' !!.) fold_submissions = Some tables).
  { apply mapM_Some_2. pose proof (mapM_Some_1 _ _ _ Hm) as Hall.
    eapply Forall2_impl; [exact Hall|]. intros r t Hr.
    by apply (run_preserves _ _ _ _ _ Hm Hrun). }
  assert (Heq : returned_table fold_submissions h'
                = returned_table fold_submissions h).
  { by rewrite (returned_table_aggregate _ _ _ Hm),
               (returned_table_aggregate _ _ _ Hm'). }
  split; [done|]. intros bytes to_csv. by rewrite Heq.
Qed.

Lemma most_frequent_prediction_rerun_witness :
  let h' := (most_frequent_prediction [0; 1; 2] three_folds).2 in
  returned_table [0; 1; 2] h' = returned_table [0; 1; 2] three_folds
  ∧ ∀ (bytes : Type) (to_csv : Submission → bytes),
      rmap to_csv (returned_table [0; 1; 2] h')
      = rmap to_csv (returned_table [0; 1; 2] three_folds).
Proof.
  apply (most_frequent_prediction_rerun three_folds [0; 1; 2]
           (most_frequent_prediction [0; 1; 2] three_folds).1).
  - intros r Hr. apply list_elem_of_In in Hr. simpl in Hr.
    destruct Hr as [<-|[<-|[<-|[]]]]; vm_compute; eauto.
  - apply surjective_pairing.
Defined.

(** C9. On the empty list most_frequent_prediction raises IndexError at its
    first statement, with the store untouched, instead of returning an empty
    table; a call that returns was given a non-empty list. *)
Theorem most_frequent_prediction_empty :
  (∀ h : heap, most_frequent_prediction [] h = (Raise IndexError, h))
  ∧ (∀ (h : heap) (fold_submissions : list loc) (r : loc) (h' : heap),
       most_frequent_prediction fold_submissions h = (Ok r, h') →
       fold_submissions ≠ []).
Proof.
  split; [done|]. intros h fs r h' Hrun ->. discriminate Hrun.
Qed.

Lemma most_frequent_prediction_empty_witness :
  [0; 1; 2] ≠ [].
Proof.
  apply (proj2 most_frequent_prediction_empty three_folds [0; 1; 2] 3
           (most_frequent_prediction [0; 1; 2] three_folds).2).
  by vm_compute.
Defined.

(** C10. most_frequent_prediction leaves every object of the store it was
    given as it was, its arguments among them, whether it returns or
    raises; what it returns is a reference that was not in use before, to a
    table whose id column is the id column of the first fold submission. *)
Theorem most_frequent_prediction_frame
  (h : heap) (fold_submissions : list loc) (res : result loc) (h' : heap) :
  (∀ r, r ∈ fold_submissions → is_Some (h !! r)) →
  most_frequent_prediction fold_submissions h = (res, h') →
  (∀ x df, h !! x = Some df → h' !! x = Some df)
  ∧ ∀ r, res = Ok r →
      h !! r = None
      ∧ ∃ r0 first out,
          fold_submissions !! 0 = Some r0 ∧ h !! r0 = Some first
          ∧ h' !! r = Some out ∧ df_id out = df_id first.
Proof.
  intros Hlive Hrun.
  destruct (live_tables _ _ Hlive) as [tables Hm].
  split; [by eapply run_preserves|].
  intros r ->. rewrite (most_frequent_prediction_run _ _ _ Hm) in Hrun.
  destruct (aggregate tables) as [out|e] eqn:Hagg; [|done].
  injection Hrun as <- <-.
  split; [apply not_elem_of_dom, is_fresh|].
  destruct (aggregate_Ok _ _ Hagg) as (first & rest & -> & Hid).
  apply mapM_Some_1 in Hm. inversion Hm as [|r0 ? fs' ? Hr0 _]; subst.
  exists r0, first, out. by rewrite lookup_insert_eq.
Qed.

Lemma most_frequent_prediction_frame_witness :
  let run := most_frequent_prediction [0; 1; 2] three_folds in
  (∀ x df, three_folds !! x = Some df → run.2 !! x = Some df)
  ∧ ∀ r, run.1 = Ok r →
      three_folds !! r = None
      ∧ ∃ r0 first out,
          [0; 1; 2] !! 0 = Some r0 ∧ three_folds !! r0 = Some first
          ∧ run.2 !! r = Some out ∧ df_id out = df_id first.
Proof.
  apply (most_frequent_prediction_frame three_folds [0; 1; 2]).
  - intros r Hr. apply list_elem_of_In in Hr. simpl in Hr.
    destruct Hr as [<-|[<-|[<-|[]]]]; vm_compute; eauto.
  - apply surjective_pairing.
Defined.

(* ===================================================================== *)
(** ** KFold without shuffling cuts consecutive blocks *)
(* ===================================================================== *)

Section kfold.
Import KFold.

Lemma fold_sizes_shape (k n : nat) :
  0 < k →
  fold_sizes k n
  = replicate (n `mod` k) (n / k + 1) ++ replicate (k - n `mod` k) (n / k).
Proof.
  intros Hk. pose proof (Nat.mod_upper_bound n k ltac:(lia)) as Hr.
  unfold fold_sizes. apply list_eq. intros i.
  rewrite list_lookup_imap.
  destruct (decide (i < n `mod` k)) as [Hi|Hi].
  - rewrite lookup_app_l by (rewrite length_replicate; lia).
    by rewrite !lookup_replicate_2 by lia.
  - rewrite lookup_app_r by (rewrite length_replicate; lia).
    rewrite length_replicate.
    destruct (decide (i < k)) as [Hik|Hik].
    + by rewrite !lookup_replicate_2 by lia.
    + rewrite (proj1 (lookup_replicate_None k _ i)) by lia.
      by rewrite (proj1 (lookup_replicate_None _ _ _)) by lia.
Qed.

Lemma sum_fold_sizes (k n : nat) : 0 < k → sum_list (fold_sizes k n) = n.
Proof.
  intros Hk. rewrite fold_sizes_shape by done.
  rewrite sum_list_with_app, !sum_list_replicate.
  pose proof (Nat.div_mod_eq n k). pose proof (Nat.mod_upper_bound n k ltac:(lia)).
  nia.
Qed.

Lemma length_fold_sizes (k n : nat) : length (fold_sizes k n) = k.
Proof. unfold fold_sizes. by rewrite length_imap, length_replicate. Qed.

Lemma slice_seq (n start size : nat) :
  start + size ≤ n → slice (seq 0 n) start (start + size) = seq start size.
Proof.
  intros Hle. unfold slice. rewrite drop_seq, take_seq. f_equal; lia.
Qed.

(** ** Boolean masks *)

Lemma mask_block (a s c d : nat) :
  foldl (λ mask i, <[i := true]> mask)
    (replicate a false ++ replicate c true ++ replicate (s + d) false)
    (seq (a + c) s)
  = replicate a false ++ replicate (c + s) true ++ replicate d false.
Proof.
  revert c. induction s as [|s IH]; intros c.
  - simpl. by rewrite Nat.add_0_r.
  - cbn [seq foldl].
    rewrite insert_app_r_alt by (rewrite length_replicate; lia).
    rewrite insert_app_r_alt by (rewrite !length_replicate; lia).
    rewrite !length_replicate.
    replace (a + c - a - c) with 0 by lia. cbn [Nat.add replicate].
    cbn [insert list_insert].
    replace (replicate c true ++ true :: replicate (s + d) false)
      with (replicate (S c) true ++ replicate (s + d) false)
      by (by rewrite replicate_S_end, <- app_assoc).
    replace (S (a + c)) with (a + S c) by lia. rewrite IH.
    by replace (S c + s) with (c + S s) by lia.
Qed.

Lemma test_mask_block (n a s : nat) :
  a + s ≤ n →
  test_mask n (seq a s)
  = replicate a false ++ replicate s true ++ replicate (n - (a + s)) false.
Proof.
  intros Hle. unfold test_mask.
  replace (replicate n false)
    with (replicate a false ++ replicate 0 true
            ++ replicate (s + (n - (a + s))) false).
  - replace (seq a s) with (seq (a + 0) s) by (f_equal; lia).
    by rewrite mask_block.
  - simpl. rewrite <- replicate_add. f_equal. lia.
Qed.

Lemma select_app {A} (xs ys : list A) (m m' : list bool) :
  length xs = length m →
  select (xs ++ ys) (m ++ m') = select xs m ++ select ys m'.
Proof.
  intros Hlen. unfold select.
  by rewrite zip_with_app, filter_app, fmap_app.
Qed.

Lemma select_true {A} (xs : list A) (n : nat) :
  length xs = n → select xs (replicate n true) = xs.
Proof.
  intros <-. unfold select. induction xs as [|x xs IH]; [done|].
  cbn [length replicate zip zip_with]. rewrite filter_cons_True by done.
  rewrite fmap_cons. simpl. f_equal. exact IH.
Qed.

Lemma select_false {A} (xs : list A) (n : nat) :
  length xs = n → select xs (replicate n false) = [].
Proof.
  intros <-. unfold select. induction xs as [|x xs IH]; [done|].
  cbn [length replicate zip zip_with]. rewrite filter_cons_False by done.
  exact IH.
Qed.

Lemma select_block (n a s : nat) :
  a + s ≤ n →
  select (seq 0 n) (test_mask n (seq a s)) = seq a s.
Proof.
  intros Hle. rewrite test_mask_block by done.
  replace n with (a + (s + (n - (a + s)))) at 1 by lia.
  rewrite !seq_app.
  rewrite select_app by (by rewrite length_seq, length_replicate).
  rewrite select_app by (by rewrite length_seq, length_replicate).
  rewrite !select_false, select_true by apply length_seq.
  simpl. by rewrite app_nil_r.
Qed.

Lemma select_complement (n a s : nat) :
  a + s ≤ n →
  select (seq 0 n) (negb <$> test_mask n (seq a s))
  = seq 0 a ++ seq (a + s) (n - (a + s)).
Proof.
  intros Hle. rewrite test_mask_block by done.
  rewrite !fmap_app, !fmap_replicate. simpl.
  replace n with (a + (s + (n - (a + s)))) at 1 by lia.
  rewrite !seq_app.
  rewrite select_app by (by rewrite length_seq, length_replicate).
  rewrite select_app by (by rewrite length_seq, length_replicate).
  rewrite !select_true, select_false by apply length_seq.
  by simpl.
Qed.

(** ** The splitter *)

Lemma split_pairs (n : nat) (sizes : list nat) (current : nat) :
  current + sum_list sizes ≤ n →
  (λ test_index,
     (select (seq 0 n) (negb <$> test_mask n test_index),
      select (seq 0 n) (test_mask n test_index)))
    <$> iter_slices (seq 0 n) sizes current
  = contiguous_folds n sizes current.
Proof.
  revert current. induction sizes as [|size rest IH]; intros current Hle; [done|].
  simpl in Hle.
  cbn [iter_slices contiguous_folds]. rewrite fmap_cons.
  rewrite slice_seq by lia.
  rewrite select_block, select_complement by lia.
  f_equal. apply IH. lia.
Qed.

(** Without shuffling, and with at least as many rows as splits, [split]
    returns the consecutive blocks, whatever the rows hold and whatever
    the random state would do. *)
Lemma split_contiguous {A} (kf : t) (rng : list nat → list nat) (X : list A) :
  shuffle kf = false → 0 < n_splits kf → n_splits kf ≤ length X →
  split kf rng X
  = Ok (contiguous_folds (length X) (fold_sizes (n_splits kf) (length X)) 0).
Proof.
  intros Hsh Hpos Hle. unfold split.
  rewrite decide_False by lia. f_equal.
  unfold iter_test_indices. rewrite Hsh.
  apply split_pairs. by rewrite sum_fold_sizes.
Qed.

Lemma init_Ok (K : nat) (kf : t) :
  init K = Ok kf → 1 < K ∧ kf = mk K false.
Proof.
  unfold init. destruct (decide (K ≤ 1)); [done|]. intros [= <-]. split; [lia|done].
Qed.
End kfold.

(* ===================================================================== *)
(** ** The folds partition the row indices *)
(* ===================================================================== *)

Section folds.
Implicit Types (n start : nat) (sizes : list nat).

Lemma length_contiguous_folds n sizes start :
  length (contiguous_folds n sizes start) = length sizes.
Proof.
  revert start. induction sizes as [|size rest IH]; intros start; [done|].
  simpl. by rewrite IH.
Qed.

(** The validation blocks, laid end to end, are the indices in order. *)
Lemma concat_validation n sizes start :
  concat (contiguous_folds n sizes start).*2 = seq start (sum_list sizes).
Proof.
  revert start. induction sizes as [|size rest IH]; intros start; [done|].
  cbn [contiguous_folds]. rewrite fmap_cons. cbn [concat snd].
  rewrite IH. simpl. by rewrite seq_app.
Qed.

(** Fold [i] validates on the block that starts where the earlier blocks
    end, and trains on what lies before and after it. *)
Lemma lookup_contiguous_folds n sizes start i f :
  contiguous_folds n sizes start !! i = Some f →
  ∃ size, sizes !! i = Some size
    ∧ f = (let a := start + sum_list (take i sizes) in
           (seq 0 a ++ seq (a + size) (n - (a + size)), seq a size)).
Proof.
  revert start i. induction sizes as [|size rest IH]; intros start i Hi; [done|].
  destruct i as [|i].
  - injection Hi as <-. exists size. split; [done|]. simpl.
    by rewrite Nat.add_0_r.
  - apply IH in Hi as (size' & Hsz & ->). exists size'. split; [done|].
    simpl. by rewrite Nat.add_assoc.
Qed.

Lemma sum_take_le sizes i size :
  sizes !! i = Some size → sum_list (take i sizes) + size ≤ sum_list sizes.
Proof.
  intros Hi. rewrite <- (take_drop_middle sizes i size Hi) at 2.
  rewrite sum_list_with_app. simpl. lia.
Qed.

Lemma union_list_to_set (ls : list (list nat)) :
  ⋃ (list_to_set <$> ls) = (list_to_set (concat ls) : gset nat).
Proof.
  induction ls as [|l ls IH]; [done|].
  rewrite fmap_cons, union_list_cons, IH. cbn [concat]. by rewrite list_to_set_app_L.
Qed.

Lemma list_elem_of_concat (ls : list (list nat)) x :
  x ∈ concat ls ↔ ∃ l, l ∈ ls ∧ x ∈ l.
Proof.
  rewrite list_elem_of_In, in_concat. split.
  - intros (l & Hl & Hx). exists l. by rewrite !list_elem_of_In.
  - intros (l & Hl & Hx). exists l. by rewrite <- !list_elem_of_In.
Qed.

Lemma NoDup_concat_apart (ls : list (list nat)) i j l1 l2 x :
  NoDup (concat ls) → ls !! i = Some l1 → ls !! j = Some l2 →
  x ∈ l1 → x ∈ l2 → i = j.
Proof.
  revert i j. induction ls as [|l ls IH]; intros i j Hnd Hi Hj H1 H2; [done|].
  cbn [concat] in Hnd. apply NoDup_app in Hnd as (_ & Hsep & Hnd).
  assert (Hin : ∀ k l', ls !! k = Some l' → x ∈ l' → x ∈ concat ls).
  { intros k l' Hk Hx. apply list_elem_of_concat. exists l'. split; [|done].
    by eapply list_elem_of_lookup_2. }
  destruct i as [|i], j as [|j]; [done| | |].
  - injection Hi as <-. exfalso. by eapply Hsep, Hin.
  - injection Hj as <-. exfalso. by eapply Hsep, Hin.
  - f_equal. by eapply IH.
Qed.
End folds.

(** C2. For every fold count K ≥ 2 and every table of N ≥ K rows, building
    the splitter and splitting the table returns K (train, validation)
    pairs: the validation sets together are exactly {0..N-1}, any two of
    them are disjoint, every row index lies in exactly one of them, and the
    train indices of each fold are exactly the row indices outside its
    validation set. *)
Theorem KFold_split_partition
  (A : Type) (K : nat) (rng : list nat → list nat) (X : list A) :
  2 ≤ K →
  K ≤ length X →
  ∃ folds,
    rbind (KFold.init K) (λ kf, KFold.split kf rng X) = Ok folds
    ∧ length folds = K
    ∧ ⋃ ((λ f, list_to_set f.2) <$> folds) = (set_seq 0 (length X) : gset nat)
    ∧ (∀ i j fi fj, i ≠ j → folds !! i = Some fi → folds !! j = Some fj →
         (list_to_set fi.2 : gset nat) ## list_to_set fj.2)
    ∧ (∀ x, x < length X →
         ∃ i fi, folds !! i = Some fi ∧ x ∈ fi.2
                 ∧ ∀ j fj, folds !! j = Some fj → x ∈ fj.2 → j = i)
    ∧ Forall (λ f, NoDup f.1 ∧ NoDup f.2
                   ∧ (list_to_set f.1 : gset nat)
                     = set_seq 0 (length X) ∖ list_to_set f.2) folds.
Proof.
  intros HK Hle.
  assert (KFold.init K = Ok (KFold.mk K false)) as ->.
  { unfold KFold.init. rewrite decide_False; [done|lia]. }
  cbn [rbind].
  set (N := length X) in *.
  exists (contiguous_folds N (KFold.fold_sizes K N) 0).
  assert (Hsum : sum_list (KFold.fold_sizes K N) = N) by (apply sum_fold_sizes; lia).
  assert (Hcat : concat (contiguous_folds N (KFold.fold_sizes K N) 0).*2 = seq 0 N).
  { by rewrite concat_validation, Hsum. }
  assert (Hnd : NoDup (concat (contiguous_folds N (KFold.fold_sizes K N) 0).*2)).
  { rewrite Hcat. apply NoDup_seq. }
  split; [apply split_contiguous; simpl; [done|lia|done]|].
  split; [by rewrite length_contiguous_folds, length_fold_sizes|].
  split; [|split; [|split]].
  - change (λ f : list nat * list nat, list_to_set f.2)
      with (list_to_set (C := gset nat) ∘ snd (A := list nat)).
    rewrite list_fmap_compose, union_list_to_set, Hcat.
    apply set_eq. intros x.
    rewrite elem_of_list_to_set, elem_of_seq, elem_of_set_seq. lia.
  - intros i j fi fj Hij Hi Hj. apply elem_of_disjoint. intros x.
    rewrite !elem_of_list_to_set. intros Hxi Hxj. apply Hij.
    eapply (NoDup_concat_apart _ i j fi.2 fj.2 x Hnd);
      [by rewrite list_lookup_fmap, Hi|by rewrite list_lookup_fmap, Hj|done|done].
  - intros x Hx.
    assert (Hin : x ∈ concat (contiguous_folds N (KFold.fold_sizes K N) 0).*2).
    { rewrite Hcat. apply elem_of_seq. lia. }
    apply list_elem_of_concat in Hin as (l & Hl & Hxl).
    apply list_elem_of_lookup in Hl as [i Hi].
    rewrite list_lookup_fmap in Hi.
    destruct (contiguous_folds N (KFold.fold_sizes K N) 0 !! i) as [fi|] eqn:Hfi;
      [|done].
    injection Hi as <-. exists i, fi. split; [done|]. split; [done|].
    intros j fj Hj Hxj.
    eapply (NoDup_concat_apart _ j i fj.2 fi.2 x Hnd);
      [by rewrite list_lookup_fmap, Hj|by rewrite list_lookup_fmap, Hfi|done|done].
  - apply Forall_lookup. intros i f Hf.
    apply lookup_contiguous_folds in Hf as (size & Hsz & ->).
    pose proof (sum_take_le _ _ _ Hsz) as Hb. rewrite Hsum in Hb.
    cbn zeta. cbn [fst snd]. rewrite Nat.add_0_l.
    set (a := sum_list (take i (KFold.fold_sizes K N))) in *.
    split; [|split].
    + apply NoDup_app. split; [apply NoDup_seq|]. split; [|apply NoDup_seq].
      intros x. rewrite !elem_of_seq. lia.
    + apply NoDup_seq.
    + apply set_eq. intros x.
      rewrite elem_of_difference, !elem_of_list_to_set, elem_of_app,
        !elem_of_seq, elem_of_set_seq. lia.
Qed.

Lemma KFold_split_partition_witness :
  ∃ folds,
    rbind (KFold.init 5) (λ kf, KFold.split kf reverse (seq 0 13)) = Ok folds
    ∧ length folds = 5
    ∧ ⋃ ((λ f, list_to_set f.2) <$> folds) = (set_seq 0 13 : gset nat)
    ∧ (∀ i j fi fj, i ≠ j → folds !! i = Some fi → folds !! j = Some fj →
         (list_to_set fi.2 : gset nat) ## list_to_set fj.2)
    ∧ (∀ x, x < 13 →
         ∃ i fi, folds !! i = Some fi ∧ x ∈ fi.2
                 ∧ ∀ j fj, folds !! j = Some fj → x ∈ fj.2 → j = i)
    ∧ Forall (λ f, NoDup f.1 ∧ NoDup f.2
                   ∧ (list_to_set f.1 : gset nat)
                     = set_seq 0 13 ∖ list_to_set f.2) folds.
Proof.
  apply (KFold_split_partition nat 5 reverse (seq 0 13)).
  - lia.
  - simpl. lia.
Defined.

(** C2 at K = 1 (and K = 0): a table of three rows has N ≥ K, but
    [KFold(n_splits=1)] raises ValueError when it is built, so no pair is
    produced; scikit-learn asks for at least two splits. *)
Lemma KFold_split_partition_one_split :
  1 ≤ length [10; 11; 12]
  ∧ KFold.init 1 = Raise ValueError
  ∧ KFold.init 0 = Raise ValueError
  ∧ (∀ rng : list nat → list nat,
       rbind (KFold.init 1) (λ kf, KFold.split kf rng [10; 11; 12])
       = Raise ValueError)
  ∧ ¬ ∃ kf, KFold.init 1 = Ok kf.
Proof.
  split; [simpl; lia|]. split; [done|]. split; [done|]. split; [done|].
  by intros [kf Hkf].
Qed.

Lemma init_5 : KFold.init 5 = Ok (KFold.mk 5 false).
Proof. reflexivity. Qed.

(** C8. The splitter of [train], [KFold(n_splits=5)], does not shuffle and
    takes no labels: on N ≥ 5 rows its folds depend on N alone (not on what
    the rows hold, not on the random state), every validation set is a
    block of consecutive row indices in row order and the train indices are
    the rows before and after the block, in row order; 10 rows give five
    folds with 2 validation rows and 8 training rows each, the validation
    blocks covering the 10 rows once. *)
Theorem KFold_split_contiguous :
  (∀ (A B : Type) (rng rng' : list nat → list nat) (X : list A) (Y : list B),
     5 ≤ length X →
     ∃ folds,
       rbind (KFold.init 5) (λ kf, KFold.split kf rng X) = Ok folds
       ∧ (length Y = length X →
            rbind (KFold.init 5) (λ kf, KFold.split kf rng' Y) = Ok folds)
       ∧ length folds = 5
       ∧ concat folds.*2 = seq 0 (length X)
       ∧ ∀ i f, folds !! i = Some f →
           ∃ start size,
             start + size ≤ length X
             ∧ f.2 = seq start size
             ∧ f.1 = seq 0 start ++ seq (start + size) (length X - (start + size)))
  ∧ (∀ (A : Type) (rng : list nat → list nat) (X : list A),
       length X = 10 →
       rbind (KFold.init 5) (λ kf, KFold.split kf rng X)
       = Ok [ ([2; 3; 4; 5; 6; 7; 8; 9], [0; 1]);
              ([0; 1; 4; 5; 6; 7; 8; 9], [2; 3]);
              ([0; 1; 2; 3; 6; 7; 8; 9], [4; 5]);
              ([0; 1; 2; 3; 4; 5; 8; 9], [6; 7]);
              ([0; 1; 2; 3; 4; 5; 6; 7], [8; 9]) ]).
Proof.
  split.
  - intros A B rng rng' X Y Hle. rewrite init_5. cbn [rbind].
    exists (contiguous_folds (length X) (KFold.fold_sizes 5 (length X)) 0).
    assert (Hsum : sum_list (KFold.fold_sizes 5 (length X)) = length X)
      by (apply sum_fold_sizes; lia).
    split; [apply split_contiguous; simpl; [done|lia|done]|].
    split; [intros Hlen; rewrite <- Hlen in *;
            apply split_contiguous; simpl; [done|lia|lia]|].
    split; [by rewrite length_contiguous_folds, length_fold_sizes|].
    split; [by rewrite concat_validation, Hsum|].
    intros i f Hf. apply lookup_contiguous_folds in Hf as (size & Hsz & ->).
    pose proof (sum_take_le _ _ _ Hsz) as Hb. rewrite Hsum in Hb.
    exists (sum_list (take i (KFold.fold_sizes 5 (length X)))), size.
    cbn zeta. cbn [fst snd]. by rewrite Nat.add_0_l.
  - intros A rng X Hlen. rewrite init_5. cbn [rbind].
    rewrite split_contiguous by (simpl; (done || lia)).
    rewrite Hlen. by vm_compute.
Qed.

Lemma KFold_split_contiguous_witness :
  ∃ folds,
    rbind (KFold.init 5) (λ kf, KFold.split kf reverse (seq 0 13)) = Ok folds
    ∧ (length (replicate 13 tt) = length (seq 0 13) →
         rbind (KFold.init 5) (λ kf, KFold.split kf id (replicate 13 tt)) = Ok folds)
    ∧ length folds = 5
    ∧ concat folds.*2 = seq 0 (length (seq 0 13))
    ∧ ∀ i f, folds !! i = Some f →
        ∃ start size,
          start + size ≤ length (seq 0 13)
          ∧ f.2 = seq start size
          ∧ f.1 = seq 0 start
                  ++ seq (start + size) (length (seq 0 13) - (start + size)).
Proof.
  apply (proj1 KFold_split_contiguous nat unit reverse id (seq 0 13) (replicate 13 tt)).
  simpl. lia.
Defined.

(* ===================================================================== *)
(** ** The checkpoint train_model asks for *)
(* ===================================================================== *)

Section checkpoint.
Import Lightning.

Lemma Qlt_bool_iff (x y : Q) : Qlt_bool x y = true ↔ (x < y)%Q.
Proof.
  unfold Qlt_bool. rewrite negb_true_iff. split.
  - intros Hle. apply Qnot_le_lt. intros H%Qle_bool_iff. congruence.
  - intros Hlt. destruct (Qle_bool y x) eqn:Hle; [|done].
    apply Qle_bool_iff in Hle. by apply Qlt_not_le in Hlt.
Qed.

(** With one slot and mode "min" a later epoch replaces the kept
    checkpoint exactly when its monitored value is strictly lower. *)
Lemma on_validation_end_min (ck : ModelCheckpoint) epoch0 kept_value epoch current :
  mode ck = Min → save_top_k ck = 1 →
  on_validation_end ck [(epoch0, kept_value)] epoch current
  = if Qlt_bool current kept_value
    then filter (λ c, c.1 ≠ epoch0) [(epoch0, kept_value)] ++ [(epoch, current)]
    else [(epoch0, kept_value)].
Proof.
  intros Hmode Hk. unfold on_validation_end. rewrite Hmode, Hk.
  by rewrite decide_False by (simpl; lia).
Qed.

(** With one slot and mode "min" the checkpoint left after any run of
    epochs is the first one that reached the lowest monitored value. *)
Lemma retained_min_from (ck : ModelCheckpoint) (values : list Q)
    (start epoch0 : nat) (kept_value : Q) :
  mode ck = Min → save_top_k ck = 1 →
  ∃ epoch value,
    foldl (λ kept '(epoch, current), on_validation_end ck kept epoch current)
          [(epoch0, kept_value)] (zip (seq start (length values)) values)
    = [(epoch, value)]
    ∧ (value <= kept_value)%Q
    ∧ (∀ v, v ∈ values → (value <= v)%Q)
    ∧ ((epoch, value) = (epoch0, kept_value)
       ∨ ∃ j, values !! j = Some value ∧ epoch = start + j).
Proof.
  intros Hmode Hk. revert start epoch0 kept_value.
  induction values as [|current values IH]; intros start epoch0 kept_value.
  - exists epoch0, kept_value. split; [done|]. split; [apply Qle_refl|].
    split; [|by left]. intros v Hv. by apply elem_of_nil in Hv.
  - cbn [length seq zip zip_with foldl].
    rewrite on_validation_end_min by done.
    rewrite filter_cons_False by (simpl; by intros ?). rewrite filter_nil, app_nil_l.
    destruct (Qlt_bool current kept_value) eqn:Hlt.
    + apply Qlt_bool_iff in Hlt.
      destruct (IH (S start) start current) as (e & v & Hrun & Hle & Hall & Hwhere).
      exists e, v. split; [done|]. split; [|split].
      * eapply Qle_trans; [exact Hle|]. by apply Qlt_le_weak.
      * intros v' [->|Hv']%elem_of_cons; [done|by apply Hall].
      * right. destruct Hwhere as [[= -> ->]|(j & Hj & ->)].
        -- exists 0. split; [done|lia].
        -- exists (S j). split; [done|lia].
    + assert (Hge : (kept_value <= current)%Q).
      { apply Qnot_lt_le. intros H%Qlt_bool_iff. congruence. }
      destruct (IH (S start) epoch0 kept_value) as (e & v & Hrun & Hle & Hall & Hwhere).
      exists e, v. split; [done|]. split; [done|]. split.
      * intros v' [->|Hv']%elem_of_cons; [by eapply Qle_trans|by apply Hall].
      * destruct Hwhere as [Heq|(j & Hj & ->)]; [by left|].
        right. exists (S j). split; [done|lia].
Qed.

Lemma retained_min (ck : ModelCheckpoint) (values : list Q) :
  mode ck = Min → save_top_k ck = 1 → values ≠ [] →
  ∃ epoch value,
    retained ck values = [(epoch, value)]
    ∧ values !! epoch = Some value
    ∧ ∀ v, v ∈ values → (value <= v)%Q.
Proof.
  intros Hmode Hk Hne. destruct values as [|v0 values]; [done|].
  unfold retained, enumerate. cbn [length seq zip zip_with foldl].
  unfold on_validation_end at 2. rewrite Hk.
  rewrite decide_True by (simpl; lia). rewrite app_nil_l.
  destruct (retained_min_from ck values 1 0 v0 Hmode Hk)
    as (e & v & Hrun & Hle & Hall & Hwhere).
  exists e, v. split; [done|]. split.
  - destruct Hwhere as [[= -> ->]|(j & Hj & ->)]; [done|]. done.
  - intros v' [->|Hv']%elem_of_cons; [done|by apply Hall].
Qed.
End checkpoint.

(** The checkpoint [train_model] keeps is, on every run of epochs, one with
    the lowest validation accuracy. *)
Lemma train_model_checkpoint_lowest (cfg : Cfg) (fold_index : nat) (values : list Q) :
  values ≠ [] →
  ∃ epoch value,
    Lightning.retained (checkpointer cfg fold_index) values = [(epoch, value)]
    ∧ values !! epoch = Some value
    ∧ ∀ v, v ∈ values → (value <= v)%Q.
Proof. by apply retained_min. Qed.

(** C4 (the code departs from it). train_model monitors the validation
    accuracy with one slot but in mode "min": after two epochs with
    validation accuracy 1/2 and then 9/10 the checkpoint it retains is the
    one of epoch 0, accuracy 1/2, the lowest and not the best; mode "max"
    with the same settings would retain epoch 1. *)
Theorem train_model_checkpoint_keeps_lowest (cfg : Cfg) (fold_index : nat) :
  let ck := checkpointer cfg fold_index in
  Lightning.monitor ck = "val/acc_epoch"
  ∧ Lightning.save_top_k ck = 1
  ∧ Lightning.mode ck = Lightning.Min
  ∧ Lightning.retained ck [1 # 2; 9 # 10]%Q = [(0, (1 # 2)%Q)]
  ∧ Lightning.retained
      (Lightning.mkModelCheckpoint (Lightning.dirpath ck) (Lightning.monitor ck)
         Lightning.Max (Lightning.save_weights_only ck) (Lightning.save_top_k ck)
         (Lightning.filename ck))
      [1 # 2; 9 # 10]%Q = [(1, (9 # 10)%Q)].
Proof. by repeat split. Qed.

(* ===================================================================== *)
(** ** The run of train *)
(* ===================================================================== *)

Lemma bind_Ok {S A B} (m : prog S A) (k : A → prog S B) s a s' :
  m s = (Ok a, s') → bind m k s = k a s'.
Proof. intros Hm. unfold bind. by rewrite Hm. Qed.

Lemma iloc_rows_at {A} (df : list A) (positions : list nat) :
  Forall (λ i, i < length df) positions →
  iloc df positions = Ok (rows_at df positions).
Proof.
  induction 1 as [|i rest Hi _ IH]; [done|].
  destruct (lookup_lt_is_Some_2 df i Hi) as [row Hrow].
  unfold rows_at. cbn [iloc omap list_omap]. rewrite Hrow, IH. done.
Qed.

Lemma split_5_in_range {A} (rng : list nat → list nat) (X : list A) splits :
  rbind (KFold.init 5) (λ kf, KFold.split kf rng X) = Ok splits →
  length splits = 5
  ∧ Forall (λ f, Forall (λ i, i < length X) f.1
                 ∧ Forall (λ i, i < length X) f.2) splits.
Proof.
  rewrite init_5. cbn [rbind]. intros Hsplit.
  assert (Hle : 5 ≤ length X).
  { unfold KFold.split in Hsplit. cbn [KFold.n_splits] in Hsplit.
    destruct (decide (length X < 5)); [done|lia]. }
  rewrite split_contiguous in Hsplit by (simpl; (done || lia)).
  change (KFold.n_splits (KFold.mk 5 false)) with 5 in Hsplit.
  assert (splits = contiguous_folds (length X) (KFold.fold_sizes 5 (length X)) 0)
    as -> by congruence.
  clear Hsplit.
  split; [by rewrite length_contiguous_folds, length_fold_sizes|].
  assert (Hsum : sum_list (KFold.fold_sizes 5 (length X)) = length X)
    by (apply sum_fold_sizes; lia).
  apply Forall_lookup. intros i f Hf.
  apply lookup_contiguous_folds in Hf as (size & Hsz & ->).
  pose proof (sum_take_le _ _ _ Hsz) as Hb. rewrite Hsum in Hb.
  cbn zeta. cbn [fst snd]. split.
  - apply Forall_forall. intros x. rewrite elem_of_app, !elem_of_seq. lia.
  - apply Forall_forall. intros x. rewrite elem_of_seq. lia.
Qed.

Lemma read_csv_train_run path rows w :
  files w !! path = Some (TrainCsv rows) →
  read_csv_train path w
  = (Ok rows, mkWorld (objects w) (files w) (log w ++ [read_csv path])).
Proof.
  intros Hf. unfold read_csv_train, emit, modify, gets, bind.
  cbn [files]. by rewrite Hf.
Qed.

Lemma read_csv_test_run path rows w :
  files w !! path = Some (TestCsv rows) →
  read_csv_test path w
  = (Ok rows, mkWorld (objects w) (files w) (log w ++ [read_csv path])).
Proof.
  intros Hf. unfold read_csv_test, emit, modify, gets, bind.
  cbn [files]. by rewrite Hf.
Qed.


Section orchestration_run.
Variable Model : Type.
Variable fit : Cfg → Lightning.WandbLogger → Lightning.ModelCheckpoint →
               list TrainRow → list TrainRow → result Model.
Variable test : Model → list TestRow → result Submission.
Variable rng : list nat → list nat.

(** A fold whose training and prediction go through: one new object, the
    fold's predictions, read back from the file the test step wrote. *)
Lemma train_model_run cfg train_data val_data test_data fold_index model sub w :
  fit cfg (logger cfg fold_index) (checkpointer cfg fold_index)
      train_data val_data = Ok model →
  test model test_data = Ok sub →
  train_model Model fit test cfg train_data val_data test_data fold_index w
  = (Ok (fresh (dom (objects w))),
     mkWorld (<[fresh (dom (objects w)) := sub]> (objects w))
             (<[path_join (current_dir cfg) "submission.csv"
                  := SubmissionCsv sub]> (files w))
             (log w ++ fold_events cfg fold_index)).
Proof.
  intros Hfit Htest.
  unfold train_model, trainer_test_step, read_csv_submission, emit, modify,
    lift, gets, on_objects, alloc, bind, pure.
  cbn [objects files log]. rewrite Hfit, Htest. cbn [objects files log].
  rewrite lookup_insert_eq. cbn [objects files log].
  unfold fold_events. by rewrite <- !app_assoc.
Qed.

(** The loop over the folds: one [train_model] call per fold, in fold
    order, each appending the reference it returns. *)
Lemma train_loop cfg (train_df : list TrainRow) (test_df : list TestRow)
    splits subs a acc w :
  Forall (λ f, Forall (λ i, i < length train_df) f.1
               ∧ Forall (λ i, i < length train_df) f.2) splits →
  Forall2 (λ '(ii, (tr, va)) sub,
             ∃ model,
               fit cfg (logger cfg ii) (checkpointer cfg ii)
                   (rows_at train_df tr) (rows_at train_df va) = Ok model
               ∧ test model test_df = Ok sub)
          (zip (seq a (length splits)) splits) subs →
  ∃ rs w',
    for_each (zip (seq a (length splits)) splits) acc
      (λ predictions '(ii, (train_indices, val_indices)),
         let* train_data := lift (iloc train_df train_indices) in
         let* val_data := lift (iloc train_df val_indices) in
         let* test_predictions :=
           train_model Model fit test cfg train_data val_data test_df ii in
         pure (predictions ++ [test_predictions])) w
    = (Ok (acc ++ rs), w')
    ∧ Forall2 (λ r sub, objects w' !! r = Some sub) rs subs
    ∧ NoDup rs
    ∧ Forall (λ r, objects w !! r = None) rs
    ∧ (∀ x df, objects w !! x = Some df → objects w' !! x = Some df)
    ∧ log w' = log w ++ flat_map (fold_events cfg) (seq a (length splits)).
Proof.
  intros Hrange. revert subs a acc w.
  induction Hrange as [|[tr va] rest [Htr Hva] _ IH]; intros subs a acc w Hsubs.
  - inversion Hsubs; subst. exists [], w. cbn [for_each length seq flat_map].
    unfold pure. rewrite !app_nil_r. repeat split; (done || constructor).
  - cbn [length seq zip zip_with] in Hsubs.
    inversion Hsubs as [|? sub ? subs' Hhead Hrest]; subst.
    cbn beta iota in Hhead. destruct Hhead as (model & Hfit & Htest).
    cbn [fst snd] in Htr, Hva.
    set (r := fresh (dom (objects w))).
    set (w1 := mkWorld (<[r := sub]> (objects w))
                 (<[path_join (current_dir cfg) "submission.csv"
                      := SubmissionCsv sub]> (files w))
                 (log w ++ fold_events cfg a)).
    destruct (IH subs' (S a) (acc ++ [r]) w1 Hrest)
      as (rs & w' & Hloop & Hrs & Hnd & Hnew & Hframe & Hlog).
    assert (Hfresh : objects w !! r = None) by apply not_elem_of_dom, is_fresh.
    assert (Hnew' : Forall (λ x, x ≠ r ∧ objects w !! x = None) rs).
    { eapply Forall_impl; [exact Hnew|]. intros x Hx. subst w1.
      cbn [objects] in Hx. apply lookup_insert_None in Hx as [? ?]. by split. }
    exists (r :: rs), w'. split; [|split; [|split; [|split; [|split]]]].
    + cbn [length seq zip zip_with for_each].
      erewrite bind_Ok; [|].
      * rewrite Hloop. by rewrite <- app_assoc.
      * unfold lift at 1. erewrite bind_Ok by (by rewrite iloc_rows_at).
        unfold lift at 1. erewrite bind_Ok by (by rewrite iloc_rows_at).
        erewrite bind_Ok by (by eapply train_model_run). done.
    + constructor; [|done]. apply Hframe. subst w1. cbn [objects].
      apply lookup_insert_eq.
    + constructor; [|done]. intros Hin.
      rewrite Forall_forall in Hnew'. by destruct (Hnew' r Hin).
    + constructor; [done|]. eapply Forall_impl; [exact Hnew'|]. by intros x [_ ?].
    + intros x df Hx. apply Hframe. subst w1. cbn [objects].
      rewrite lookup_insert_ne; [done|]. intros <-. congruence.
    + rewrite Hlog. subst w1. cbn [log length seq flat_map].
      by rewrite <- app_assoc.
Qed.
End orchestration_run.

(* ===================================================================== *)
(** ** train: five folds in sequence, then one aggregation *)
(* ===================================================================== *)

Section orchestration_correct.
Variable Model : Type.
Variable fit : Cfg → Lightning.WandbLogger → Lightning.ModelCheckpoint →
               list TrainRow → list TrainRow → result Model.
Variable test : Model → list TestRow → result Submission.
Variable rng : list nat → list nat.

End orchestration_correct.


(* ===================================================================== *)
(** ** More on most_frequent_prediction: rows are matched by position *)
(* ===================================================================== *)

Section aggregate_by_position.
Implicit Types (h : heap) (fs : list loc) (tables : list (list Row)).

Lemma rows_eq (a b : list Row) :
  df_id a = df_id b → df_prediction a = df_prediction b → a = b.
Proof.
  unfold df_id, df_prediction. revert b.
  induction a as [|[ia pa] a IH]; intros [|[ib pb] b] Hid Hp; try done.
  cbn in Hid, Hp.
  injection Hid as -> Hid. injection Hp as -> Hp. f_equal. by apply IH.
Qed.

(** Two different values cannot both fill more than their share. *)
Lemma count_two (s : list Z) (v w : Z) :
  v ≠ w → count s v + count s w ≤ length s.
Proof.
  intros Hne. unfold count. induction s as [|x s IH]; [done|].
  destruct (decide (x = v)) as [->|Hv].
  - rewrite count_occ_cons_eq, count_occ_cons_neq by done. simpl. lia.
  - destruct (decide (x = w)) as [->|Hw].
    + rewrite count_occ_cons_neq, count_occ_cons_eq by done. simpl. lia.
    + rewrite !count_occ_cons_neq by done. simpl. lia.
Qed.

Lemma count_Permutation (s s' : list Z) (v : Z) : s ≡ₚ s' → count s v = count s' v.
Proof. intros Hp. unfold count. by apply Permutation_count_occ. Qed.

Lemma max_count_Permutation (s s' : list Z) : s ≡ₚ s' → max_count s = max_count s'.
Proof.
  intros Hp. unfold max_count.
  rewrite (list_fmap_ext (count s) (count s') s)
    by (intros; by apply count_Permutation).
  by rewrite Hp.
Qed.

(** The modes of a row do not depend on the order of its votes. *)
Lemma Series_mode_Permutation (s s' : list Z) :
  s ≡ₚ s' → Series_mode s = Series_mode s'.
Proof.
  intros Hp.
  assert (Hanti : AntiSymm (=) Z.le) by (intros x y ??; lia).
  apply (StronglySorted_unique Z.le); [apply Series_mode_sorted..|].
  apply NoDup_Permutation.
  - unfold Series_mode. rewrite merge_sort_Permutation. apply NoDup_remove_dups.
  - unfold Series_mode. rewrite merge_sort_Permutation. apply NoDup_remove_dups.
  - intros v. rewrite !elem_of_Series_mode.
    rewrite (count_Permutation s s' v Hp), (max_count_Permutation s s' Hp).
    by rewrite Hp.
Qed.
Lemma NoDup_Series_mode (s : list Z) : NoDup (Series_mode s).
Proof. unfold Series_mode. rewrite merge_sort_Permutation. apply NoDup_remove_dups. Qed.

(** A row on which all votes agree has one mode. *)
Lemma Series_mode_constant (s : list Z) (x : Z) :
  s ≠ [] → Forall (λ v, v = x) s → Series_mode s = [x].
Proof.
  intros Hne Hall.
  assert (Hin : ∀ v, v ∈ Series_mode s → v = x).
  { intros v [Hv _]%elem_of_Series_mode. rewrite Forall_forall in Hall. auto. }
  pose proof (Series_mode_nonempty s Hne) as Hm.
  pose proof (NoDup_Series_mode s) as Hnd.
  destruct (Series_mode s) as [|a [|b l]]; [done| |].
  - f_equal. apply Hin. by left.
  - assert (a = x) as -> by (apply Hin; by left).
    assert (b = x) as -> by (apply Hin; right; by left).
    apply NoDup_cons in Hnd as [Hnotin _]. exfalso. apply Hnotin. by left.
Qed.

Lemma max_list_le (l : list nat) (k : nat) :
  Forall (λ x, x ≤ k) l → max_list l ≤ k.
Proof. induction 1 as [|x l Hx _ IH]; simpl; lia. Qed.

(** Rows with the same number of modes need no padding. *)
Lemma not_ragged (ms : list (list Z)) (k : nat) :
  Forall (λ l, length l = k) ms → ¬ ragged ms.
Proof.
  intros Hall (l & Hl & Hlt)%Exists_exists.
  assert (Hmax : max_list (length <$> ms) ≤ k).
  { apply max_list_le, Forall_fmap. eapply Forall_impl; [exact Hall|].
    intros l' Hl'. unfold compose. cbn beta in *. lia. }
  rewrite Forall_forall in Hall. specialize (Hall l Hl). lia.
Qed.

Lemma votes_nonempty h fs n i :
  fs ≠ [] →
  (∀ r, r ∈ fs → ∃ df, h !! r = Some df ∧ length df = n) →
  i < n → votes h fs i ≠ [].
Proof.
  intros Hne Hall Hi. destruct fs as [|r fs']; [done|].
  destruct (Hall r) as (df & Hdf & Hlen); [by left|].
  unfold votes. cbn [omap list_omap]. rewrite Hdf. cbn [mbind option_bind].
  destruct (lookup_lt_is_Some_2 (df_prediction df) i) as [x ->]; [|done].
  rewrite length_df_prediction. lia.
Qed.

Lemma mapM_Permutation {A B} (f : A → option B) (l l' : list A) (k : list B) :
  l ≡ₚ l' → mapM f l = Some k → ∃ k', mapM f l' = Some k' ∧ k ≡ₚ k'.
Proof.
  intros Hp. revert k.
  induction Hp as [|x l l' _ IH|x y l|l l' l'' _ IH1 _ IH2]; intros k Hk.
  - exists k. by split.
  - apply mapM_Some_1 in Hk. inversion Hk as [|? b ? k0 Hx Hrest]; subst.
    apply mapM_Some_2 in Hrest. destruct (IH _ Hrest) as (k' & Hk' & Hp').
    exists (b :: k'). split; [|by constructor].
    apply mapM_Some_2. constructor; [done|]. by apply mapM_Some_1.
  - apply mapM_Some_1 in Hk. inversion Hk as [|? b ? k0 Hy Hrest]; subst.
    inversion Hrest as [|? c ? k1 Hx Hrest']; subst.
    exists (c :: b :: k1). split; [|apply perm_swap].
    apply mapM_Some_2. by repeat constructor.
  - destruct (IH1 _ Hk) as (k' & Hk' & Hp').
    destruct (IH2 _ Hk') as (k'' & Hk'' & Hp'').
    exists k''. split; [done|]. by etrans.
Qed.

Lemma frame_dtype_Permutation (cols cols' : list (list Z)) :
  cols ≡ₚ cols' → frame_dtype cols = frame_dtype cols'.
Proof.
  intros Hp. unfold frame_dtype.
  assert (He : ∀ P : list Z → Prop, Exists P cols ↔ Exists P cols').
  { intros P. rewrite !Exists_exists. by setoid_rewrite Hp. }
  assert (Hf : ∀ P : list Z → Prop, Forall P cols ↔ Forall P cols').
  { intros P. rewrite !Forall_forall. by setoid_rewrite Hp. }
  rewrite (decide_ext _ _ _ _ (He (λ c, infer_dtype c = object))).
  rewrite (decide_ext _ _ int64 _ (Hf (λ c, infer_dtype c = int64))).
  by rewrite (decide_ext _ _ uint64 _ (Hf (λ c, infer_dtype c = uint64))).
Qed.

Lemma row_modes_Permutation (cols cols' : list (list Z)) (n : nat) :
  cols ≡ₚ cols' → row_modes cols n = row_modes cols' n.
Proof.
  intros Hp. unfold row_modes, row_of. apply list_fmap_ext. intros _ i _.
  apply Series_mode_Permutation. by rewrite Hp.
Qed.

(** The frame of modes does not depend on the order of the columns. *)
Lemma mode_axis1_Permutation (labels : list nat) (n : nat)
    (cols cols' : list (list Z)) :
  cols ≡ₚ cols' →
  mode_axis1 (mkWide labels n cols) = mode_axis1 (mkWide labels n cols').
Proof.
  intros Hp. unfold mode_axis1. cbn [nrows data columns].
  destruct n as [|n']; [done|]. cbn zeta.
  rewrite <- (frame_dtype_Permutation _ _ Hp).
  fold (row_modes (frame_values cols) (S n')).
  fold (row_modes (frame_values cols') (S n')).
  assert (Hv : frame_values cols ≡ₚ frame_values cols').
  { unfold frame_values. rewrite <- (frame_dtype_Permutation _ _ Hp).
    destruct (frame_dtype cols); by rewrite Hp. }
  by rewrite (row_modes_Permutation _ _ _ Hv).
Qed.

Lemma set_column_ids (a b : list Row) (values : list Z) :
  df_id a = df_id b → set_column a values = set_column b values.
Proof.
  unfold df_id, set_column. revert b values.
  induction a as [|ra a IH]; intros [|rb b] values Hid; try done.
  cbn in Hid. injection Hid as Hr Hid. destruct values as [|v values]; [done|].
  cbn. rewrite Hr. f_equal. by apply IH.
Qed.

(** Tables with the same ids aggregate to the same result in any order. *)
Lemma aggregate_Permutation tables tables' (ids : list string) :
  tables ≡ₚ tables' → Forall (λ t, df_id t = ids) tables →
  aggregate tables = aggregate tables'.
Proof.
  intros Hp Hids.
  assert (Hids' : Forall (λ t, df_id t = ids) tables') by (by rewrite <- Hp).
  destruct tables as [|t0 ts].
  { apply Permutation_nil_l in Hp. by subst. }
  destruct tables' as [|t0' ts'].
  { by apply Permutation_nil_r in Hp. }
  apply Forall_cons in Hids as [Hid0 Hids].
  apply Forall_cons in Hids' as [Hid0' Hids'].
  assert (Hl : ∀ tables0 : list (list Row),
            Forall (λ t, df_id t = ids) tables0 →
            Forall (λ c, length c = length ids) (df_prediction <$> tables0)).
  { intros tables0 H0. apply Forall_fmap. eapply Forall_impl; [exact H0|].
    intros t <-. unfold compose. by rewrite length_df_prediction, length_df_id. }
  unfold aggregate.
  rewrite (DataFrame_uniform (df_prediction <$> t0 :: ts) (length ids));
    [|done|by apply Hl; constructor].
  rewrite (DataFrame_uniform (df_prediction <$> t0' :: ts') (length ids));
    [|done|by apply Hl; constructor].
  cbn [rbind].
  rewrite !length_fmap, <- (Permutation_length Hp).
  rewrite (mode_axis1_Permutation _ _ (df_prediction <$> t0 :: ts)
             (df_prediction <$> t0' :: ts')) by (by rewrite Hp).
  destruct (rbind (getitem_column _ 0) astype_int) as [prediction|e]; [|done].
  cbn [rbind].
  assert (length t0 = length t0') as <-.
  { rewrite <- (length_df_id t0), <- (length_df_id t0'). congruence. }
  destruct (decide _); [|done]. f_equal. apply set_column_ids. congruence.
Qed.
End aggregate_by_position.

(** X1. most_frequent_prediction matches rows by position and never
    compares ids: fold submissions that only agree in their number of rows,
    with predictions between -2^53 and 2^53, aggregate to a table with the
    ids of the first one, holding at every position the smallest of the
    most frequent predictions made at that position. *)
Theorem most_frequent_prediction_by_position
  (h : heap) (fold_submissions : list loc) (n : nat) :
  fold_submissions ≠ [] →
  (∀ r, r ∈ fold_submissions → ∃ df, h !! r = Some df ∧ length df = n) →
  (∀ r df, r ∈ fold_submissions → h !! r = Some df →
     Forall exact_float64 (df_prediction df)) →
  ∃ r0 first r out,
    fold_submissions !! 0 = Some r0 ∧ h !! r0 = Some first
    ∧ most_frequent_prediction fold_submissions h = (Ok r, <[r := out]> h)
    ∧ df_id out = df_id first
    ∧ length out = n
    ∧ ∀ i, i < n →
         ∃ v : Z, df_prediction out !! i = Some v
                  ∧ is_mode v (votes h fold_submissions i)
                  ∧ ∀ w, is_mode w (votes h fold_submissions i) → (v ≤ w)%Z.
Proof.
  intros Hne Hall Hex.
  destruct (most_frequent_prediction_same_length h _ n Hne Hall Hex)
    as (r0 & first & out & Hr0 & Hfirst & Hrun & Hid & Hrows).
  exists r0, first, (fresh (dom h)), out. repeat (split; [done|]). split.
  - destruct (Hall r0) as (df & Hdf & Hlen); [by eapply list_elem_of_lookup_2|].
    assert (df = first) as -> by congruence.
    apply (f_equal length) in Hid. rewrite !length_df_id in Hid. lia.
  - intros i Hi. destruct (Hrows i Hi) as (v & Hv & Hhd).
    exists v. split; [done|]. split.
    + by apply Series_mode_is_mode, head_Series_mode_elem.
    + intros w Hw. eapply head_Series_mode_least; [done|].
      by apply is_mode_Series_mode.
Qed.

Lemma most_frequent_prediction_by_position_witness :
  ∃ r0 first r out,
    [0; 1] !! 0 = Some r0 ∧ misaligned_folds !! r0 = Some first
    ∧ most_frequent_prediction [0; 1] misaligned_folds
      = (Ok r, <[r := out]> misaligned_folds)
    ∧ df_id out = df_id first
    ∧ length out = 2
    ∧ ∀ i, i < 2 →
         ∃ v : Z, df_prediction out !! i = Some v
                  ∧ is_mode v (votes misaligned_folds [0; 1] i)
                  ∧ ∀ w, is_mode w (votes misaligned_folds [0; 1] i) → (v ≤ w)%Z.
Proof.
  apply (most_frequent_prediction_by_position misaligned_folds [0; 1] 2); [done|..].
  - apply elem_of_two; eexists; split; vm_compute; reflexivity.
  - intros r df Hr. revert df. revert r Hr.
    apply (elem_of_two
             (λ r, ∀ df, misaligned_folds !! r = Some df →
                         Forall exact_float64 (df_prediction df)));
      intros df Hdf; vm_compute in Hdf; injection Hdf as <-;
      apply (bool_decide_unpack _); by vm_compute.
Defined.

(** X2. Fold submissions with different numbers of rows are refused:
    most_frequent_prediction raises ValueError, returns no table and leaves
    every object it was given as it was. *)
Theorem most_frequent_prediction_ragged
  (h : heap) (fold_submissions : list loc) (r1 r2 : loc) (df1 df2 : list Row) :
  (∀ r, r ∈ fold_submissions → is_Some (h !! r)) →
  r1 ∈ fold_submissions → r2 ∈ fold_submissions →
  h !! r1 = Some df1 → h !! r2 = Some df2 →
  length df1 ≠ length df2 →
  ∃ h',
    most_frequent_prediction fold_submissions h = (Raise ValueError, h')
    ∧ ∀ x df, h !! x = Some df → h' !! x = Some df.
Proof.
  intros Hlive Hin1 Hin2 Hdf1 Hdf2 Hlen.
  destruct (live_tables _ _ Hlive) as [tables Hm].
  assert (Hagg : aggregate tables = Raise ValueError).
  { pose proof (mapM_Some_1 _ _ _ Hm) as Hall.
    assert (Ht : ∀ r df, r ∈ fold_submissions → h !! r = Some df → df ∈ tables).
    { intros r df [j Hj]%list_elem_of_lookup Hdf.
      destruct (Forall2_lookup_l _ _ _ _ _ Hall Hj) as (t & Ht & Hrt).
      assert (t = df) as -> by congruence. by eapply list_elem_of_lookup_2. }
    pose proof (Ht _ _ Hin1 Hdf1) as Ht1. pose proof (Ht _ _ Hin2 Hdf2) as Ht2.
    unfold aggregate. destruct tables as [|first rest]; [by apply elem_of_nil in Ht1|].
    unfold DataFrame. rewrite enumerate_snd.
    rewrite decide_False; [done|]. intros Hforall.
    rewrite Forall_fmap, Forall_forall in Hforall.
    pose proof (Hforall _ Ht1) as H1. pose proof (Hforall _ Ht2) as H2.
    unfold compose in H1, H2. rewrite length_df_prediction in H1, H2. lia. }
  rewrite (most_frequent_prediction_run _ _ _ Hm), Hagg.
  eexists. split; [done|]. intros x df Hx.
  destruct tables; [done|]. rewrite lookup_insert_ne; [done|].
  intros <-. apply (is_fresh (dom h)), elem_of_dom. by eexists.
Qed.

Lemma most_frequent_prediction_ragged_witness :
  ∃ h',
    most_frequent_prediction [0; 1] ragged_folds = (Raise ValueError, h')
    ∧ ∀ x df, ragged_folds !! x = Some df → h' !! x = Some df.
Proof.
  apply (most_frequent_prediction_ragged ragged_folds [0; 1] 0 1
           (table ["r0"; "r1"] [1; 2]%Z) (table ["r0"; "r1"; "r2"] [1; 0; 2]%Z)).
  - intros r Hr. apply list_elem_of_In in Hr. simpl in Hr.
    destruct Hr as [<-|[<-|[]]]; vm_compute; eauto.
  - by left.
  - right. by left.
  - by vm_compute.
  - by vm_compute.
  - simpl. lia.
Defined.

(** X3. When every fold submission holds the same table (a single fold, or
    one object listed several times, among others) and its predictions are
    64-bit signed integers, the aggregate is a new object with exactly that
    table. *)
Theorem most_frequent_prediction_unanimous
  (h : heap) (fold_submissions : list loc) (df : list Row) :
  fold_submissions ≠ [] →
  (∀ r, r ∈ fold_submissions → h !! r = Some df) →
  Forall in_int64 (df_prediction df) →
  ∃ r, h !! r = None
       ∧ most_frequent_prediction fold_submissions h = (Ok r, <[r := df]> h).
Proof.
  intros Hne Hall Hint.
  assert (Hlen : ∀ r, r ∈ fold_submissions →
                   ∃ df', h !! r = Some df' ∧ length df' = length df).
  { intros r Hr. exists df. split; [by apply Hall|done]. }
  destruct (most_frequent_prediction_int64 h fold_submissions (length df))
    as (r0 & first & out & Hr0 & Hfirst & Hrun & Hid & Hout); [done|done| |].
  { intros r df' Hr Hdf'. rewrite (Hall r Hr) in Hdf'. by injection Hdf' as <-. }
  assert (first = df) as ->.
  { apply list_elem_of_lookup_2, Hall in Hr0. congruence. }
  exists (fresh (dom h)). split; [apply not_elem_of_dom, is_fresh|].
  rewrite Hrun. do 2 f_equal. apply rows_eq; [done|]. rewrite Hout.
  assert (Hmodes : ∀ i, i < length df →
            ∃ v, df_prediction df !! i = Some v
                 ∧ Series_mode (votes h fold_submissions i) = [v]).
  { intros i Hi.
    destruct (lookup_lt_is_Some_2 (df_prediction df) i) as [v Hv];
      [by rewrite length_df_prediction|].
    exists v. split; [done|]. apply Series_mode_constant.
    - by apply (votes_nonempty _ _ (length df)).
    - apply Forall_forall. intros x (r & df' & Hr & Hdf' & Hx)%votes_elem.
      rewrite (Hall r Hr) in Hdf'. injection Hdf' as <-. congruence. }
  rewrite bool_decide_eq_false_2.
  2:{ apply (not_ragged _ 1), Forall_fmap, Forall_forall.
      intros i Hi%elem_of_seq. simpl.
      destruct (Hmodes i) as (v & _ & ->); [lia|done]. }
  apply list_eq. intros i. rewrite list_lookup_fmap.
  destruct (decide (i < length df)) as [Hi|Hi].
  - rewrite lookup_seq_lt by done. cbn [fmap option_fmap option_map].
    change (0 + i) with i. destruct (Hmodes i Hi) as (v & -> & ->). done.
  - rewrite lookup_seq_ge by lia.
    rewrite (proj2 (lookup_ge_None _ _)); [done|].
    rewrite length_df_prediction. lia.
Qed.

Lemma most_frequent_prediction_unanimous_witness :
  ∃ r, three_folds !! r = None
       ∧ most_frequent_prediction [1; 1; 1] three_folds
         = (Ok r, <[r := table ["r0"; "r1"; "r2"] [0; 1; 1]%Z]> three_folds).
Proof.
  apply (most_frequent_prediction_unanimous three_folds [1; 1; 1]
           (table ["r0"; "r1"; "r2"] [0; 1; 1]%Z)); [done|..].
  - intros r Hr. apply list_elem_of_In in Hr. simpl in Hr.
    destruct Hr as [<-|[<-|[<-|[]]]]; by vm_compute.
  - apply (bool_decide_unpack _). by vm_compute.
Defined.

(** X4. On fold submissions with predictions between -2^53 and 2^53, a
    prediction made at a row position by more than half of the votes at
    that position is the aggregate at that position. *)
Theorem most_frequent_prediction_strict_majority
  (h : heap) (fold_submissions : list loc) (n i : nat) (v : Z) :
  fold_submissions ≠ [] →
  (∀ r, r ∈ fold_submissions → ∃ df, h !! r = Some df ∧ length df = n) →
  (∀ r df, r ∈ fold_submissions → h !! r = Some df →
     Forall exact_float64 (df_prediction df)) →
  i < n →
  length (votes h fold_submissions i) < 2 * count (votes h fold_submissions i) v →
  ∃ r out,
    most_frequent_prediction fold_submissions h = (Ok r, <[r := out]> h)
    ∧ df_prediction out !! i = Some v.
Proof.
  intros Hne Hall Hex Hi Hmaj.
  destruct (most_frequent_prediction_same_length h _ n Hne Hall Hex)
    as (r0 & first & out & _ & _ & Hrun & _ & Hrows).
  exists (fresh (dom h)), out. split; [done|].
  destruct (Hrows i Hi) as (w & Hw & Hhd). rewrite Hw. f_equal.
  apply head_Series_mode_elem, Series_mode_is_mode in Hhd as [_ Hmax].
  destruct (decide (w = v)) as [|Hne']; [done|].
  pose proof (Hmax v). pose proof (count_two (votes h fold_submissions i) w v Hne').
  lia.
Qed.

Lemma most_frequent_prediction_strict_majority_witness :
  ∃ r out,
    most_frequent_prediction [0; 1; 2] three_folds = (Ok r, <[r := out]> three_folds)
    ∧ df_prediction out !! 1 = Some 1%Z.
Proof.
  apply (most_frequent_prediction_strict_majority three_folds [0; 1; 2] 3 1 1%Z).
  - done.
  - apply elem_of_three; eexists; split; vm_compute; reflexivity.
  - intros r df Hr. revert df. revert r Hr.
    apply (elem_of_three
             (λ r, ∀ df, three_folds !! r = Some df →
                         Forall exact_float64 (df_prediction df)));
      intros df Hdf; vm_compute in Hdf; injection Hdf as <-;
      apply (bool_decide_unpack _); by vm_compute.
  - lia.
  - vm_compute. lia.
Defined.

(** X5. The aggregate does not depend on the order of the folds: fold
    submissions with the same ids, listed in another order, give the same
    result, the same table or the same exception; it is a table when the
    predictions are 64-bit signed integers. *)
Theorem most_frequent_prediction_fold_order
  (h : heap) (fold_submissions fold_submissions' : list loc) (ids : list string) :
  fold_submissions ≠ [] →
  fold_submissions ≡ₚ fold_submissions' →
  (∀ r, r ∈ fold_submissions → ∃ df, h !! r = Some df ∧ df_id df = ids) →
  returned_table fold_submissions h = returned_table fold_submissions' h
  ∧ ((∀ r df, r ∈ fold_submissions → h !! r = Some df →
        Forall in_int64 (df_prediction df)) →
     ∃ out,
       returned_table fold_submissions h = Ok out
       ∧ returned_table fold_submissions' h = Ok out).
Proof.
  intros Hne Hperm Hall.
  destruct (lookup_tables h fold_submissions (λ df, df_id df = ids) Hall)
    as (tables & Hm & Hids).
  destruct (mapM_Permutation _ _ _ _ Hperm Hm) as (tables' & Hm' & Hp).
  assert (Heq : returned_table fold_submissions h
                = returned_table fold_submissions' h).
  { rewrite (returned_table_aggregate _ _ _ Hm),
            (returned_table_aggregate _ _ _ Hm').
    by apply (aggregate_Permutation _ _ ids). }
  split; [done|]. intros Hint.
  destruct (most_frequent_prediction_int64 h fold_submissions (length ids) Hne)
    as (r0 & first & out & _ & _ & Hrun & _ & _); [|done|].
  { intros r Hr. destruct (Hall r Hr) as (df & Hdf & <-).
    exists df. by rewrite length_df_id. }
  exists out. rewrite <- Heq. split; by eapply returned_table_Ok.
Qed.

Lemma most_frequent_prediction_fold_order_witness :
  returned_table [0; 1; 2] three_folds = returned_table [2; 0; 1] three_folds
  ∧ ((∀ r df, r ∈ [0; 1; 2] → three_folds !! r = Some df →
        Forall in_int64 (df_prediction df)) →
     ∃ out,
       returned_table [0; 1; 2] three_folds = Ok out
       ∧ returned_table [2; 0; 1] three_folds = Ok out).
Proof.
  apply (most_frequent_prediction_fold_order three_folds [0; 1; 2] [2; 0; 1]
           ["r0"; "r1"; "r2"]).
  - done.
  - change [2; 0; 1] with ([2] ++ [0; 1]). change [0; 1; 2] with ([0; 1] ++ [2]).
    apply Permutation_app_comm.
  - apply elem_of_three; eexists; split; vm_compute; reflexivity.
Defined.

(* ===================================================================== *)
(** ** More on the folds: their sizes, and the rows they select *)
(* ===================================================================== *)

Lemma lookup_fold_sizes (k n i size : nat) :
  KFold.fold_sizes k n !! i = Some size →
  i < k ∧ size = n / k + (if decide (i < n `mod` k) then 1 else 0).
Proof.
  unfold KFold.fold_sizes. rewrite list_lookup_imap. intros Hi.
  destruct (replicate k (n / k) !! i) as [q|] eqn:Hq; [|done].
  apply lookup_replicate in Hq as [-> Hik]. simpl in Hi.
  split; [done|]. destruct (decide (i < n `mod` k)); injection Hi as <-; lia.
Qed.

Lemma rows_at_seq {A} (df : list A) (start size : nat) :
  start + size ≤ length df →
  rows_at df (seq start size) = take size (drop start df).
Proof.
  unfold rows_at. revert start. induction size as [|size IH]; intros start Hle.
  - by rewrite take_0.
  - destruct (lookup_lt_is_Some_2 df start) as [row Hrow]; [lia|].
    cbn [seq omap list_omap]. rewrite Hrow. cbn [omap list_omap].
    rewrite (drop_S _ _ _ Hrow). cbn [take]. f_equal.
    apply IH. lia.
Qed.

Lemma rows_at_app {A} (df : list A) (p q : list nat) :
  rows_at df (p ++ q) = rows_at df p ++ rows_at df q.
Proof. unfold rows_at. apply omap_app. Qed.

(** X6. The folds are balanced: with N rows and K folds, fold i validates
    on N div K rows, one more for the first N mod K folds, and trains on
    all the other rows; no fold validates or trains on nothing. *)
Theorem KFold_split_sizes
  (A : Type) (K : nat) (kf : KFold.t) (rng : list nat → list nat) (X : list A) :
  KFold.init K = Ok kf →
  K ≤ length X →
  ∃ folds,
    KFold.split kf rng X = Ok folds
    ∧ ∀ i f, folds !! i = Some f →
        length f.2 = length X / K + (if decide (i < length X `mod` K) then 1 else 0)
        ∧ length f.1 + length f.2 = length X
        ∧ 0 < length f.2
        ∧ 0 < length f.1.
Proof.
  intros [HK ->]%init_Ok Hle. cbn [KFold.n_splits] in *.
  set (N := length X) in *.
  exists (contiguous_folds N (KFold.fold_sizes K N) 0).
  split; [apply split_contiguous; simpl; [done|lia|done]|].
  assert (Hsum : sum_list (KFold.fold_sizes K N) = N) by (apply sum_fold_sizes; lia).
  intros i f Hf. apply lookup_contiguous_folds in Hf as (size & Hsz & ->).
  pose proof (sum_take_le _ _ _ Hsz) as Hb. rewrite Hsum in Hb.
  apply lookup_fold_sizes in Hsz as [Hik Hsize].
  cbn zeta. cbn [fst snd]. rewrite length_app, !length_seq, Nat.add_0_l.
  pose proof (Nat.div_mod_eq N K) as Hdm.
  pose proof (Nat.mod_upper_bound N K ltac:(lia)) as Hr.
  assert (Hq : 1 ≤ N / K) by (apply Nat.div_le_lower_bound; lia).
  assert (Hq2 : 2 * (N / K) ≤ K * (N / K)) by (apply Nat.mul_le_mono_r; lia).
  destruct (decide (i < N `mod` K)); lia.
Qed.

Lemma KFold_split_sizes_witness :
  ∃ folds,
    KFold.split (KFold.mk 5 false) reverse (seq 0 13) = Ok folds
    ∧ ∀ i f, folds !! i = Some f →
        length f.2 = length (seq 0 13) / 5
                     + (if decide (i < length (seq 0 13) `mod` 5) then 1 else 0)
        ∧ length f.1 + length f.2 = length (seq 0 13)
        ∧ 0 < length f.2
        ∧ 0 < length f.1.
Proof.
  apply (KFold_split_sizes nat 5 (KFold.mk 5 false) reverse (seq 0 13)).
  - reflexivity.
  - simpl. lia.
Defined.

(** X7. The tables a fold is trained and validated on: for the folds of
    [train], [iloc] never raises; the validation table is a run of
    consecutive rows of the training table, the training table of the fold
    is the rows before it followed by the rows after it, and together they
    are the rows of the training table, each once. *)
Theorem train_fold_tables
  (A : Type) (rng : list nat → list nat) (train_df : list A)
  (splits : list (list nat * list nat))
  (ii : nat) (train_indices val_indices : list nat) :
  rbind (KFold.init 5) (λ kf, KFold.split kf rng train_df) = Ok splits →
  splits !! ii = Some (train_indices, val_indices) →
  ∃ start size train_data val_data,
    iloc train_df train_indices = Ok train_data
    ∧ iloc train_df val_indices = Ok val_data
    ∧ val_data = take size (drop start train_df)
    ∧ train_data = take start train_df ++ drop (start + size) train_df
    ∧ train_data ++ val_data ≡ₚ train_df.
Proof.
  intros Hsplit Hii.
  destruct (split_5_in_range _ _ _ Hsplit) as [_ Hrange].
  rewrite Forall_lookup in Hrange. destruct (Hrange _ _ Hii) as [Htr Hva].
  cbn [fst snd] in Htr, Hva.
  rewrite init_5 in Hsplit. cbn [rbind] in Hsplit.
  assert (Hle : 5 ≤ length train_df).
  { unfold KFold.split in Hsplit. cbn [KFold.n_splits] in Hsplit.
    destruct (decide (length train_df < 5)); [done|lia]. }
  rewrite split_contiguous in Hsplit by (simpl; (done || lia)).
  change (KFold.n_splits (KFold.mk 5 false)) with 5 in Hsplit.
  assert (splits = contiguous_folds (length train_df)
                     (KFold.fold_sizes 5 (length train_df)) 0)
    as -> by congruence.
  clear Hsplit.
  assert (Hsum : sum_list (KFold.fold_sizes 5 (length train_df)) = length train_df)
    by (apply sum_fold_sizes; lia).
  apply lookup_contiguous_folds in Hii as (size & Hsz & Hf).
  pose proof (sum_take_le _ _ _ Hsz) as Hb. rewrite Hsum in Hb.
  cbn zeta in Hf. rewrite Nat.add_0_l in Hf.
  set (start := sum_list (take ii (KFold.fold_sizes 5 (length train_df)))) in *.
  injection Hf as -> ->.
  exists start, size, (rows_at train_df (seq 0 start
                         ++ seq (start + size) (length train_df - (start + size)))),
    (rows_at train_df (seq start size)).
  split; [by apply iloc_rows_at|]. split; [by apply iloc_rows_at|].
  assert (Hval : rows_at train_df (seq start size) = take size (drop start train_df))
    by (apply rows_at_seq; lia).
  assert (Htrain : rows_at train_df (seq 0 start
                     ++ seq (start + size) (length train_df - (start + size)))
                   = take start train_df ++ drop (start + size) train_df).
  { rewrite rows_at_app, !rows_at_seq by lia. rewrite drop_0. f_equal.
    apply take_ge. rewrite length_drop. lia. }
  split; [done|]. split; [done|]. rewrite Htrain, Hval.
  rewrite <- (take_drop start train_df) at 4.
  rewrite <- (take_drop size (drop start train_df)) at 2.
  rewrite drop_drop. rewrite <- app_assoc.
  apply Permutation_app_head, Permutation_app_comm.
Qed.

Lemma train_fold_tables_witness :
  ∃ start size train_data val_data,
    iloc sample_train [0; 1; 3; 4; 5] = Ok train_data
    ∧ iloc sample_train [2] = Ok val_data
    ∧ val_data = take size (drop start sample_train)
    ∧ train_data = take start sample_train ++ drop (start + size) sample_train
    ∧ train_data ++ val_data ≡ₚ sample_train.
Proof.
  apply (train_fold_tables TrainRow reverse sample_train
           [ ([2; 3; 4; 5], [0; 1]); ([0; 1; 3; 4; 5], [2]);
             ([0; 1; 2; 4; 5], [3]); ([0; 1; 2; 3; 5], [4]);
             ([0; 1; 2; 3; 4], [5]) ] 1).
  - by vm_compute.
  - reflexivity.
Defined.

(* ===================================================================== *)
(** ** More on train_model and train: failures and what they leave *)
(* ===================================================================== *)

Lemma bind_Raise {S A B} (m : prog S A) (k : A → prog S B) s e s' :
  m s = (Raise e, s') → bind m k s = (Raise e, s').
Proof. intros Hm. unfold bind. by rewrite Hm. Qed.

(** X8. The names Lightning is given differ from fold to fold: the tracker
    run names and the checkpoint file names of two different folds are
    different, so no fold logs under another's name or replaces another's
    checkpoint. *)
Theorem fold_names_distinct (cfg : Cfg) (i j : nat) :
  i ≠ j →
  Lightning.name (logger cfg i) ≠ Lightning.name (logger cfg j)
  ∧ Lightning.filename (checkpointer cfg i)
    ≠ Lightning.filename (checkpointer cfg j).
Proof.
  intros Hij. unfold logger, checkpointer. cbn [Lightning.name Lightning.filename].
  split; intros Heq; apply Hij;
    by apply (inj (String.app _)), (inj pretty) in Heq.
Qed.

Lemma fold_names_distinct_witness :
  Lightning.name (logger sample_cfg 0) ≠ Lightning.name (logger sample_cfg 4)
  ∧ Lightning.filename (checkpointer sample_cfg 0)
    ≠ Lightning.filename (checkpointer sample_cfg 4).
Proof. apply (fold_names_distinct sample_cfg 0 4). lia. Defined.

Section orchestration_failures.
Variable Model : Type.
Variable fit : Cfg → Lightning.WandbLogger → Lightning.ModelCheckpoint →
               list TrainRow → list TrainRow → result Model.
Variable test : Model → list TestRow → result (list Row).
Variable rng : list nat → list nat.

(** X9. train_model hands back what the test step wrote: when fitting and
    testing go through, it returns a reference that was not in use, to a
    table equal to the predictions of the test step; [submission.csv] under
    [current_dir] holds those predictions, replacing what it held; no other
    file and no existing object changes. *)
Theorem train_model_reads_back
    (cfg : Cfg) (train_data val_data : list TrainRow) (test_data : list TestRow)
    (fold_index : nat) (model : Model) (sub : list Row) (w : World) :
  fit cfg (logger cfg fold_index) (checkpointer cfg fold_index)
      train_data val_data = Ok model →
  test model test_data = Ok sub →
  ∃ r w',
    train_model Model fit test cfg train_data val_data test_data fold_index w
      = (Ok r, w')
    ∧ objects w !! r = None
    ∧ objects w' !! r = Some sub
    ∧ (∀ x df, objects w !! x = Some df → objects w' !! x = Some df)
    ∧ files w' !! path_join (current_dir cfg) "submission.csv"
      = Some (SubmissionCsv sub)
    ∧ (∀ p, p ≠ path_join (current_dir cfg) "submission.csv" →
         files w' !! p = files w !! p)
    ∧ log w' = log w ++ fold_events cfg fold_index.
Proof.
  intros Hfit Htest. eexists _, _. split; [by eapply train_model_run|].
  cbn [objects files log].
  assert (Hfresh : objects w !! fresh (dom (objects w)) = None)
    by apply not_elem_of_dom, is_fresh.
  split; [done|]. split; [apply lookup_insert_eq|]. split.
  - intros x df Hx. rewrite lookup_insert_ne; [done|]. intros <-. congruence.
  - split; [apply lookup_insert_eq|]. split; [|done].
    intros p Hp. by rewrite lookup_insert_ne.
Qed.

(** X10. train_model has no handler: when fitting or testing raises, the
    exception is what train_model raises; the tracker run is not closed, no
    file is read or written and the store is as it was. *)
Theorem train_model_propagates
    (cfg : Cfg) (train_data val_data : list TrainRow) (test_data : list TestRow)
    (fold_index : nat) (e : exn) (w : World) :
  rbind (fit cfg (logger cfg fold_index) (checkpointer cfg fold_index)
             train_data val_data)
        (λ model, test model test_data) = Raise e →
  ∃ w' events,
    train_model Model fit test cfg train_data val_data test_data fold_index w
      = (Raise e, w')
    ∧ objects w' = objects w
    ∧ files w' = files w
    ∧ log w' = log w ++ events
    ∧ (wandb_finish ∉ events)
    ∧ (∀ p, read_csv p ∉ events)
    ∧ Forall (λ ev, ¬ final_step ev) events.
Proof.
  intros Hraise.
  unfold train_model, trainer_test_step, read_csv_submission, emit, modify,
    lift, gets, on_objects, alloc, bind, pure.
  cbn [objects files log].
  destruct (fit cfg _ _ train_data val_data) as [model|e'] eqn:Hfit.
  - cbn [rbind] in Hraise. rewrite Hraise.
    eexists _, [_; _]. split; [reflexivity|]. cbn [objects files log].
    split; [done|]. split; [done|]. split; [by rewrite <- app_assoc|].
    split; [|split].
    + intros Hin. apply list_elem_of_In in Hin. simpl in Hin.
      by destruct Hin as [|[|[]]].
    + intros p Hin. apply list_elem_of_In in Hin. simpl in Hin.
      by destruct Hin as [|[|[]]].
    + repeat constructor; by intros [].
  - cbn [rbind] in Hraise. injection Hraise as ->.
    eexists _, [_]. split; [reflexivity|]. cbn [objects files log].
    split; [done|]. split; [done|]. split; [done|]. split; [|split].
    + intros Hin. apply list_elem_of_In in Hin. simpl in Hin.
      by destruct Hin as [|[]].
    + intros p Hin. apply list_elem_of_In in Hin. simpl in Hin.
      by destruct Hin as [|[]].
    + repeat constructor; by intros [].
Qed.

(** X11. With fewer than five training rows [train] stops at the splitter:
    it raises ValueError after reading the two tables, before any fold is
    trained; nothing is written and the store is as it was. *)
Theorem train_too_few_rows
    (cfg : Cfg) (w : World) (train_df : list TrainRow) (test_df : list TestRow) :
  files w !! path_join (data_dir cfg) "train.csv" = Some (TrainCsv train_df) →
  files w !! path_join (data_dir cfg) "test.csv" = Some (TestCsv test_df) →
  length train_df < 5 →
  train Model fit test rng cfg w
  = (Raise ValueError,
     mkWorld (objects w) (files w)
       (log w ++ [ read_csv (path_join (data_dir cfg) "train.csv");
                   read_csv (path_join (data_dir cfg) "test.csv") ])).
Proof.
  intros Htrain Htest Hlen. unfold train.
  erewrite bind_Ok by (by apply read_csv_train_run).
  erewrite bind_Ok by (by apply read_csv_test_run).
  erewrite bind_Ok by (unfold lift; by rewrite init_5).
  erewrite bind_Raise
    by (unfold lift, KFold.split; cbn [KFold.n_splits]; by rewrite decide_True).
  cbn [objects files log]. by rewrite <- app_assoc.
Qed.

(** X12. When one of the two tables is not on disk [train] raises
    FileNotFoundError at the read; nothing is trained or written, the store
    and the files are as they were, and the only events are reads. *)
Theorem train_missing_table (cfg : Cfg) (w : World) :
  files w !! path_join (data_dir cfg) "train.csv" = None
  ∨ (∃ train_df,
       files w !! path_join (data_dir cfg) "train.csv" = Some (TrainCsv train_df)
       ∧ files w !! path_join (data_dir cfg) "test.csv" = None) →
  ∃ w' events,
    train Model fit test rng cfg w = (Raise FileNotFoundError, w')
    ∧ objects w' = objects w
    ∧ files w' = files w
    ∧ log w' = log w ++ events
    ∧ Forall (λ ev, ∃ p, ev = read_csv p) events.
Proof.
  intros [Hnone|(train_df & Htrain & Hnone)]; unfold train.
  - eexists _, [_]. split.
    + apply bind_Raise. unfold read_csv_train, emit, modify, gets, bind, raise.
      cbn [files]. rewrite Hnone. reflexivity.
    + cbn [objects files log]. repeat split; [done..|]. repeat constructor. eauto.
  - eexists _, [_; _]. split.
    + erewrite bind_Ok by (by apply read_csv_train_run).
      apply bind_Raise. unfold read_csv_test, emit, modify, gets, bind, raise.
      cbn [files]. rewrite Hnone. reflexivity.
    + cbn [objects files log]. split; [done|]. split; [done|].
      split; [by rewrite <- app_assoc|]. repeat constructor; eauto.
Qed.
End orchestration_failures.

Lemma train_model_reads_back_witness :
  ∃ r w',
    train_model Z sample_fit sample_predict sample_cfg
      (drop 2 sample_train) (take 2 sample_train) sample_test 0 sample_world
      = (Ok r, w')
    ∧ objects sample_world !! r = None
    ∧ objects w' !! r = Some (table ["t0"; "t1"] [0; 0]%Z)
    ∧ (∀ x df, objects sample_world !! x = Some df → objects w' !! x = Some df)
    ∧ files w' !! path_join (current_dir sample_cfg) "submission.csv"
      = Some (SubmissionCsv (table ["t0"; "t1"] [0; 0]%Z))
    ∧ (∀ p, p ≠ path_join (current_dir sample_cfg) "submission.csv" →
         files w' !! p = files sample_world !! p)
    ∧ log w' = log sample_world ++ fold_events sample_cfg 0.
Proof.
  apply (train_model_reads_back Z sample_fit sample_predict sample_cfg
           (drop 2 sample_train) (take 2 sample_train) sample_test 0 0%Z
           (table ["t0"; "t1"] [0; 0]%Z) sample_world).
  - reflexivity.
  - reflexivity.
Defined.

Lemma train_model_propagates_witness :
  ∃ w' events,
    train_model Z failing_fit sample_predict sample_cfg
      (take 3 sample_train) (drop 3 sample_train) sample_test 2 sample_world
      = (Raise ValueError, w')
    ∧ objects w' = objects sample_world
    ∧ files w' = files sample_world
    ∧ log w' = log sample_world ++ events
    ∧ (wandb_finish ∉ events)
    ∧ (∀ p, read_csv p ∉ events)
    ∧ Forall (λ ev, ¬ final_step ev) events.
Proof.
  apply (train_model_propagates Z failing_fit sample_predict sample_cfg
           (take 3 sample_train) (drop 3 sample_train) sample_test 2 ValueError
           sample_world).
  by vm_compute.
Defined.

Lemma train_too_few_rows_witness :
  train Z sample_fit sample_predict reverse sample_cfg small_world
  = (Raise ValueError,
     mkWorld (objects small_world) (files small_world)
       (log small_world
          ++ [ read_csv (path_join (data_dir sample_cfg) "train.csv");
               read_csv (path_join (data_dir sample_cfg) "test.csv") ])).
Proof.
  apply (train_too_few_rows Z sample_fit sample_predict reverse sample_cfg
           small_world (take 3 sample_train) sample_test).
  - by vm_compute.
  - by vm_compute.
  - simpl. lia.
Defined.

Lemma train_missing_table_witness :
  ∃ w' events,
    train Z sample_fit sample_predict reverse sample_cfg (mkWorld ∅ ∅ [])
      = (Raise FileNotFoundError, w')
    ∧ objects w' = objects (mkWorld ∅ ∅ [])
    ∧ files w' = files (mkWorld ∅ ∅ [])
    ∧ log w' = log (mkWorld ∅ ∅ []) ++ events
    ∧ Forall (λ ev, ∃ p, ev = read_csv p) events.
Proof.
  apply (train_missing_table Z sample_fit sample_predict reverse sample_cfg
           (mkWorld ∅ ∅ [])).
  left. by vm_compute.
Defined.

(* ===================================================================== *)
(** ** A fold that raises ends the run *)
(* ===================================================================== *)

Lemma for_each_app {S A B} (xs ys : list A) (acc : B) (body : B → A → prog S B) s :
  for_each (xs ++ ys) acc body s
  = bind (for_each xs acc body) (λ acc', for_each ys acc' body) s.
Proof.
  revert acc s. induction xs as [|x xs IH]; intros acc s; [done|].
  cbn [app for_each]. unfold bind.
  destruct (body acc x s) as [[acc'|e] s']; [|done].
  rewrite IH. by unfold bind.
Qed.

Lemma enumerate_from_app {A} (l1 l2 : list A) (a : nat) :
  zip (seq a (length (l1 ++ l2))) (l1 ++ l2)
  = zip (seq a (length l1)) l1 ++ zip (seq (a + length l1) (length l2)) l2.
Proof.
  rewrite length_app, seq_app. apply zip_with_app. by rewrite length_seq.
Qed.

Section fold_failure.
Variable Model : Type.
Variable fit : Cfg → Lightning.WandbLogger → Lightning.ModelCheckpoint →
               list TrainRow → list TrainRow → result Model.
Variable test : Model → list TestRow → result (list Row).
Variable rng : list nat → list nat.

Lemma train_model_raise cfg train_data val_data test_data fold_index e w :
  rbind (fit cfg (logger cfg fold_index) (checkpointer cfg fold_index)
             train_data val_data)
        (λ model, test model test_data) = Raise e →
  train_model Model fit test cfg train_data val_data test_data fold_index w
  = (Raise e,
     mkWorld (objects w) (files w)
       (log w
          ++ trainer_fit (logger cfg fold_index) (checkpointer cfg fold_index)
             :: match fit cfg (logger cfg fold_index) (checkpointer cfg fold_index)
                          train_data val_data with
                | Ok _ => [trainer_test (logger cfg fold_index)]
                | Raise _ => []
                end)).
Proof.
  intros Hraise.
  unfold train_model, trainer_test_step, read_csv_submission, emit, modify,
    lift, gets, on_objects, alloc, bind, pure.
  cbn [objects files log].
  destruct (fit cfg _ _ train_data val_data) as [model|e'] eqn:Hfit;
    cbn [rbind] in Hraise.
  - rewrite Hraise. by rewrite <- app_assoc.
  - by injection Hraise as ->.
Qed.

(** The files after a loop in which every fold went through: the last
    fold's predictions sit in [submission.csv]. *)
Lemma train_loop_files cfg (train_df : list TrainRow) (test_df : list TestRow)
    splits subs a acc w rs w' :
  Forall (λ f, Forall (λ i, i < length train_df) f.1
               ∧ Forall (λ i, i < length train_df) f.2) splits →
  Forall2 (λ '(ii, (tr, va)) sub,
             ∃ model,
               fit cfg (logger cfg ii) (checkpointer cfg ii)
                   (rows_at train_df tr) (rows_at train_df va) = Ok model
               ∧ test model test_df = Ok sub)
          (zip (seq a (length splits)) splits) subs →
  for_each (zip (seq a (length splits)) splits) acc
    (λ predictions '(ii, (train_indices, val_indices)),
       let* train_data := lift (iloc train_df train_indices) in
       let* val_data := lift (iloc train_df val_indices) in
       let* test_predictions :=
         train_model Model fit test cfg train_data val_data test_df ii in
       pure (predictions ++ [test_predictions])) w
  = (Ok rs, w') →
  files w'
  = match last subs with
    | Some sub =>
        <[path_join (current_dir cfg) "submission.csv" := SubmissionCsv sub]>
          (files w)
    | None => files w
    end.
Proof.
  intros Hrange. revert subs a acc w.
  induction Hrange as [|[tr va] rest [Htr Hva] _ IH]; intros subs a acc w Hsubs.
  - inversion Hsubs; subst. cbn [for_each length seq zip zip_with].
    unfold pure. by intros [= _ <-].
  - cbn [length seq zip zip_with] in Hsubs.
    inversion Hsubs as [|? sub ? subs' Hhead Hrest]; subst.
    cbn beta iota in Hhead. destruct Hhead as (model & Hfit & Htest).
    cbn [fst snd] in Htr, Hva.
    cbn [length seq zip zip_with for_each].
    erewrite bind_Ok.
    2:{ unfold lift at 1. erewrite bind_Ok by (by rewrite iloc_rows_at).
        unfold lift at 1. erewrite bind_Ok by (by rewrite iloc_rows_at).
        erewrite bind_Ok by (by eapply train_model_run). done. }
    intros Hloop. rewrite (IH _ _ _ _ Hrest Hloop). cbn [files].
    rewrite last_cons. destruct (last subs'); [|done].
    by rewrite insert_insert_eq.
Qed.

(** X13. A fold that raises ends the run: when the folds before fold [k]
    go through and fitting or testing fold [k] raises, [train] raises that
    exception.  What the run did is: the two reads, the calls of
    [train_model] for the folds before [k] in order, the fit of fold [k]
    and, when the fit returned, its test; so no later fold is trained,
    [most_frequent_prediction] is not called, the merged submission is not
    written and nothing is handed to the tracker.  [submission.csv] is left
    holding the predictions of the last fold that went through (or what it
    held, if none did), and no other file changes. *)
Theorem train_fold_failure
    (cfg : Cfg) (w : World) (train_df : list TrainRow) (test_df : list TestRow)
    (splits : list (list nat * list nat)) (k : nat)
    (train_indices val_indices : list nat) (subs : list (list Row)) (e : exn) :
  files w !! path_join (data_dir cfg) "train.csv" = Some (TrainCsv train_df) →
  files w !! path_join (data_dir cfg) "test.csv" = Some (TestCsv test_df) →
  rbind (KFold.init 5) (λ kf, KFold.split kf rng train_df) = Ok splits →
  splits !! k = Some (train_indices, val_indices) →
  Forall2 (λ '(ii, (tr, va)) sub,
             ∃ model,
               fit cfg (logger cfg ii) (checkpointer cfg ii)
                   (rows_at train_df tr) (rows_at train_df va) = Ok model
               ∧ test model test_df = Ok sub)
          (enumerate (take k splits)) subs →
  rbind (fit cfg (logger cfg k) (checkpointer cfg k)
             (rows_at train_df train_indices) (rows_at train_df val_indices))
        (λ model, test model test_df) = Raise e →
  ∃ w',
    train Model fit test rng cfg w = (Raise e, w')
    ∧ k < 5 ∧ length subs = k
    ∧ log w'
      = log w
        ++ [ read_csv (path_join (data_dir cfg) "train.csv");
             read_csv (path_join (data_dir cfg) "test.csv") ]
        ++ flat_map (fold_events cfg) (seq 0 k)
        ++ trainer_fit (logger cfg k) (checkpointer cfg k)
           :: match fit cfg (logger cfg k) (checkpointer cfg k)
                        (rows_at train_df train_indices)
                        (rows_at train_df val_indices) with
              | Ok _ => [trainer_test (logger cfg k)]
              | Raise _ => []
              end
    ∧ files w' !! path_join (current_dir cfg) "submission.csv"
      = match last subs with
        | Some sub => Some (SubmissionCsv sub)
        | None => files w !! path_join (current_dir cfg) "submission.csv"
        end
    ∧ (∀ p, p ≠ path_join (current_dir cfg) "submission.csv" →
         files w' !! p = files w !! p)
    ∧ (∀ x df, objects w !! x = Some df → objects w' !! x = Some df).
Proof.
  intros Htrain Htest Hsplit Hk Hsubs Hraise.
  destruct (split_5_in_range _ _ _ Hsplit) as [Hlen5 Hrange].
  rewrite init_5 in Hsplit. cbn [rbind] in Hsplit.
  pose proof (lookup_lt_Some _ _ _ Hk) as Hklt.
  assert (Hlenk : length (take k splits) = k) by (apply length_take_le; lia).
  pose proof (Forall_lookup_1 _ _ _ _ Hrange Hk) as [Htr Hva].
  cbn [fst snd] in Htr, Hva.
  set (w0 := mkWorld (objects w) (files w)
               ((log w ++ [read_csv (path_join (data_dir cfg) "train.csv")])
                  ++ [read_csv (path_join (data_dir cfg) "test.csv")])).
  unfold enumerate in Hsubs.
  assert (Hlens : length subs = k).
  { apply Forall2_length in Hsubs.
    rewrite length_zip_with, length_seq in Hsubs. lia. }
  destruct (train_loop Model fit test cfg train_df test_df (take k splits) subs
              0 [] w0 (Forall_take _ _ _ Hrange) Hsubs)
    as (rs & w1 & Hloop & _ & _ & _ & Hframe & Hlog).
  pose proof (train_loop_files cfg train_df test_df (take k splits) subs
                0 [] w0 _ w1 (Forall_take _ _ _ Hrange) Hsubs Hloop) as Hfiles.
  pose proof (train_model_raise cfg (rows_at train_df train_indices)
                (rows_at train_df val_indices) test_df k e w1 Hraise) as Hmodel.
  eexists. split; [|split; [lia|split; [done|split; [|split; [|split]]]]].
  - unfold train.
    erewrite bind_Ok by (by apply read_csv_train_run).
    erewrite bind_Ok by (by apply read_csv_test_run).
    erewrite bind_Ok by (unfold lift; by rewrite init_5).
    erewrite bind_Ok by (unfold lift; by rewrite Hsplit).
    fold w0. apply bind_Raise. unfold enumerate.
    rewrite <- (take_drop_middle _ _ _ Hk) at 1 2.
    rewrite enumerate_from_app, for_each_app.
    erewrite bind_Ok by exact Hloop.
    rewrite Hlenk. cbn [length seq zip zip_with for_each].
    apply bind_Raise.
    unfold lift at 1. erewrite bind_Ok by (by rewrite iloc_rows_at).
    unfold lift at 1. erewrite bind_Ok by (by rewrite iloc_rows_at).
    apply bind_Raise. exact Hmodel.
  - cbn [log]. rewrite Hlog, Hlenk. subst w0. cbn [log].
    by rewrite <- !app_assoc.
  - cbn [files]. rewrite Hfiles. subst w0. cbn [files].
    destruct (last subs); [apply lookup_insert_eq|done].
  - intros p Hp. cbn [files]. rewrite Hfiles. subst w0. cbn [files].
    destruct (last subs); [by rewrite lookup_insert_ne|done].
  - intros x df Hx. cbn [objects]. by apply Hframe.
Qed.
End fold_failure.

Lemma train_fold_failure_witness :
  ∃ w',
    train Z failing_fit sample_predict reverse sample_cfg sample_world
      = (Raise ValueError, w')
    ∧ 2 < 5
    ∧ length [ table ["t0"; "t1"] [0; 0]%Z; table ["t0"; "t1"] [2; 2]%Z ] = 2
    ∧ log w'
      = log sample_world
        ++ [ read_csv (path_join (data_dir sample_cfg) "train.csv");
             read_csv (path_join (data_dir sample_cfg) "test.csv") ]
        ++ flat_map (fold_events sample_cfg) (seq 0 2)
        ++ trainer_fit (logger sample_cfg 2) (checkpointer sample_cfg 2)
           :: match failing_fit sample_cfg (logger sample_cfg 2)
                        (checkpointer sample_cfg 2)
                        (rows_at sample_train [0; 1; 2; 4; 5])
                        (rows_at sample_train [3]) with
              | Ok _ => [trainer_test (logger sample_cfg 2)]
              | Raise _ => []
              end
    ∧ files w' !! path_join (current_dir sample_cfg) "submission.csv"
      = match last [ table ["t0"; "t1"] [0; 0]%Z; table ["t0"; "t1"] [2; 2]%Z ] with
        | Some sub => Some (SubmissionCsv sub)
        | None => files sample_world
                    !! path_join (current_dir sample_cfg) "submission.csv"
        end
    ∧ (∀ p, p ≠ path_join (current_dir sample_cfg) "submission.csv" →
         files w' !! p = files sample_world !! p)
    ∧ (∀ x df, objects sample_world !! x = Some df → objects w' !! x = Some df).
Proof.
  apply (train_fold_failure Z failing_fit sample_predict reverse sample_cfg
           sample_world sample_train sample_test
           [ ([2; 3; 4; 5], [0; 1]); ([0; 1; 3; 4; 5], [2]);
             ([0; 1; 2; 4; 5], [3]); ([0; 1; 2; 3; 5], [4]);
             ([0; 1; 2; 3; 4], [5]) ]
           2 [0; 1; 2; 4; 5] [3]
           [ table ["t0"; "t1"] [0; 0]%Z; table ["t0"; "t1"] [2; 2]%Z ]
           ValueError).
  - by vm_compute.
  - by vm_compute.
  - by vm_compute.
  - reflexivity.
  - repeat constructor; eexists; split; vm_compute; reflexivity.
  - by vm_compute.
Defined.

(* ===================================================================== *)
(** ** Which checkpoint survives *)
(* ===================================================================== *)

Section checkpoint_first.
Import Lightning.

(** One slot, mode "min": after more epochs the slot holds what it held, if
    no later value was strictly lower, and otherwise the first epoch that
    reached the lowest value. *)
Lemma retained_first_from (ck : ModelCheckpoint) (values : list Q)
    (start epoch0 : nat) (kept_value : Q) :
  mode ck = Min → save_top_k ck = 1 →
  ∃ epoch value,
    foldl (λ kept '(epoch, current), on_validation_end ck kept epoch current)
          [(epoch0, kept_value)] (zip (seq start (length values)) values)
    = [(epoch, value)]
    ∧ (((epoch, value) = (epoch0, kept_value)
        ∧ ∀ v, v ∈ values → (kept_value <= v)%Q)
       ∨ ∃ j, values !! j = Some value ∧ epoch = start + j
              ∧ (value < kept_value)%Q
              ∧ (∀ v, v ∈ values → (value <= v)%Q)
              ∧ ∀ j' v', j' < j → values !! j' = Some v' → (value < v')%Q).
Proof.
  intros Hmode Hk. revert start epoch0 kept_value.
  induction values as [|current values IH]; intros start epoch0 kept_value.
  - exists epoch0, kept_value. split; [done|]. left. split; [done|].
    intros v Hv. by apply elem_of_nil in Hv.
  - cbn [length seq zip zip_with foldl].
    rewrite on_validation_end_min by done.
    rewrite filter_cons_False by (simpl; by intros ?). rewrite filter_nil, app_nil_l.
    destruct (Qlt_bool current kept_value) eqn:Hlt.
    + apply Qlt_bool_iff in Hlt.
      destruct (IH (S start) start current)
        as (e & v & Hrun & [[[= -> ->] Hall]|(j & Hj & -> & Hvlt & Hall & Hfirst)]).
      * exists start, current. split; [done|]. right. exists 0.
        split; [done|]. split; [lia|]. split; [done|]. split.
        -- intros v' [->|Hv']%elem_of_cons; [apply Qle_refl|by apply Hall].
        -- intros j' v' Hj'. lia.
      * exists (S start + j), v. split; [done|]. right. exists (S j).
        split; [done|]. split; [lia|]. split; [by eapply Qlt_trans|]. split.
        -- intros v' [->|Hv']%elem_of_cons; [by apply Qlt_le_weak|by apply Hall].
        -- intros [|j'] v' Hj' Hv'; [by injection Hv' as <-|].
           apply (Hfirst j'); [lia|done].
    + assert (Hge : (kept_value <= current)%Q).
      { apply Qnot_lt_le. intros H%Qlt_bool_iff. congruence. }
      destruct (IH (S start) epoch0 kept_value)
        as (e & v & Hrun & [[[= -> ->] Hall]|(j & Hj & -> & Hvlt & Hall & Hfirst)]).
      * exists epoch0, kept_value. split; [done|]. left. split; [done|].
        intros v' [->|Hv']%elem_of_cons; [done|by apply Hall].
      * exists (S start + j), v. split; [done|]. right. exists (S j).
        split; [done|]. split; [lia|]. split; [done|]. split.
        -- intros v' [->|Hv']%elem_of_cons;
             [by apply Qlt_le_weak; eapply Qlt_le_trans|by apply Hall].
        -- intros [|j'] v' Hj' Hv'.
           ++ injection Hv' as <-. by eapply Qlt_le_trans.
           ++ apply (Hfirst j'); [lia|done].
Qed.
End checkpoint_first.

(** X14. The checkpoint [train_model] asks Lightning to keep: after any
    run of epochs exactly one checkpoint is left, it has the lowest
    monitored validation accuracy of the run, and among the epochs that
    reached that value it is the earliest. *)
Theorem train_model_checkpoint_first_lowest
    (cfg : Cfg) (fold_index : nat) (values : list Q) :
  values ≠ [] →
  ∃ epoch value,
    Lightning.retained (checkpointer cfg fold_index) values = [(epoch, value)]
    ∧ values !! epoch = Some value
    ∧ (∀ v, v ∈ values → (value <= v)%Q)
    ∧ ∀ epoch' value', epoch' < epoch → values !! epoch' = Some value' →
        (value < value')%Q.
Proof.
  intros Hne. destruct values as [|v0 values]; [done|].
  unfold Lightning.retained, enumerate. cbn [length seq zip zip_with foldl].
  unfold Lightning.on_validation_end at 2.
  rewrite decide_True by (simpl; lia). rewrite app_nil_l.
  destruct (retained_first_from (checkpointer cfg fold_index) values 1 0 v0
              eq_refl eq_refl)
    as (e & v & Hrun & [[[= -> ->] Hall]|(j & Hj & -> & Hvlt & Hall & Hfirst)]).
  - exists 0, v0. split; [done|]. split; [done|]. split.
    + intros v' [->|Hv']%elem_of_cons; [apply Qle_refl|by apply Hall].
    + intros e' v' He'. lia.
  - exists (1 + j), v. split; [done|]. split; [done|]. split.
    + intros v' [->|Hv']%elem_of_cons; [by apply Qlt_le_weak|by apply Hall].
    + intros [|e'] v' He' Hv'; [by injection Hv' as <-|].
      apply (Hfirst e'); [lia|done].
Qed.

Lemma train_model_checkpoint_first_lowest_witness :
  ∃ epoch value,
    Lightning.retained (checkpointer sample_cfg 0) [7 # 10; 1 # 2; 9 # 10; 1 # 2]%Q
      = [(epoch, value)]
    ∧ [7 # 10; 1 # 2; 9 # 10; 1 # 2]%Q !! epoch = Some value
    ∧ (∀ v, v ∈ [7 # 10; 1 # 2; 9 # 10; 1 # 2]%Q → (value <= v)%Q)
    ∧ ∀ epoch' value', epoch' < epoch →
        [7 # 10; 1 # 2; 9 # 10; 1 # 2]%Q !! epoch' = Some value' →
        (value < value')%Q.
Proof.
  apply (train_model_checkpoint_first_lowest sample_cfg 0
           [7 # 10; 1 # 2; 9 # 10; 1 # 2]%Q).
  done.
Defined.

(* ===================================================================== *)
(** ** What no run of train touches *)
(* ===================================================================== *)

Section frame_rules.
Context (path : string).

Lemma extends_refl w : extends path w w.
Proof. repeat split; [done..|]. exists []. by rewrite app_nil_r. Qed.

Lemma extends_trans w1 w2 w3 :
  extends path w1 w2 → extends path w2 w3 → extends path w1 w3.
Proof.
  intros (Ho1 & Hf1 & ev1 & Hl1) (Ho2 & Hf2 & ev2 & Hl2). split; [|split].
  - intros x df Hx. by apply Ho2, Ho1.
  - intros p Hp. by rewrite Hf2, Hf1.
  - exists (ev1 ++ ev2). by rewrite Hl2, Hl1, app_assoc.
Qed.

Lemma extends_log w events :
  extends path w (mkWorld (objects w) (files w) (log w ++ events)).
Proof. repeat split; [done..|]. by exists events. Qed.

Lemma live_extends rs w w' : extends path w w' → live rs w → live rs w'.
Proof.
  intros (Ho & _) Hlive. eapply Forall_impl; [exact Hlive|].
  intros r [df Hr]. exists df. by apply Ho.
Qed.

Lemma frames_bind {A B} (m : prog World A) (k : A → prog World B) Pre Mid Post :
  frames path Pre m Mid → (∀ a, frames path (Mid a) (k a) Post) →
  frames path Pre (bind m k) Post.
Proof.
  intros Hm Hk w res w' Hpre. unfold bind.
  destruct (m w) as [[a|e] w1] eqn:Hrun; intros Hres.
  - destruct (Hm _ _ _ Hpre Hrun) as [Hext Hmid].
    destruct (Hk a _ _ _ (Hmid a eq_refl) Hres) as [Hext' Hpost].
    split; [by eapply extends_trans|done].
  - injection Hres as <- <-. destruct (Hm _ _ _ Hpre Hrun) as [Hext _].
    split; [done|]. by intros a.
Qed.

Lemma frames_weaken {A} (m : prog World A) (Pre Pre' : World → Prop)
    (Post Post' : A → World → Prop) :
  (∀ w, Pre' w → Pre w) → (∀ a w, Post a w → Post' a w) →
  frames path Pre m Post → frames path Pre' m Post'.
Proof.
  intros Hpre Hpost Hm w res w' Hw Hrun.
  destruct (Hm _ _ _ (Hpre _ Hw) Hrun) as [Hext Hp].
  split; [done|]. intros a Ha. by apply Hpost, Hp.
Qed.

Lemma frames_lift {A} (r : result A) Pre :
  frames path Pre (lift r) (λ _ w, Pre w).
Proof.
  intros w res w' Hpre [= <- <-]. split; [apply extends_refl|done].
Qed.

Lemma frames_pure {A} (a : A) (Post : A → World → Prop) :
  frames path (Post a) (pure a) Post.
Proof.
  intros w res w' Hpre [= <- <-]. split; [apply extends_refl|].
  by intros ? [= <-].
Qed.

Lemma frames_emit (ev : Event) rs :
  frames path (live rs) (emit ev) (λ _ w, live rs w).
Proof.
  intros w res w' Hpre [= <- <-]. split; [apply extends_log|done].
Qed.

Lemma frames_read_csv_train p :
  frames path (λ _, True) (read_csv_train p) (λ _ _, True).
Proof.
  intros w res w' _. unfold read_csv_train, emit, modify, gets, bind, pure, raise.
  cbn [files]. intros Hrun. split; [|done].
  destruct (files w !! p) as [[| |]|]; injection Hrun as <- <-; apply extends_log.
Qed.

Lemma frames_read_csv_test p :
  frames path (λ _, True) (read_csv_test p) (λ _ _, True).
Proof.
  intros w res w' _. unfold read_csv_test, emit, modify, gets, bind, pure, raise.
  cbn [files]. intros Hrun. split; [|done].
  destruct (files w !! p) as [[| |]|]; injection Hrun as <- <-; apply extends_log.
Qed.

Lemma frames_most_frequent_prediction rs :
  frames path (live rs) (on_objects (most_frequent_prediction rs)) (λ _ _, True).
Proof.
  intros w res w' Hlive. unfold on_objects.
  destruct (most_frequent_prediction rs (objects w)) as [res1 h] eqn:Hrun.
  intros [= <- <-]. split; [|done].
  destruct (live_tables (objects w) rs) as [tables Hm].
  { intros r Hr. by eapply Forall_forall in Hlive. }
  split; [|split]; cbn [objects files log].
  - by eapply run_preserves.
  - done.
  - exists []. by rewrite app_nil_r.
Qed.
End frame_rules.

Lemma frames_df_to_csv r p :
  frames p (λ _, True) (df_to_csv r p) (λ _ _, True).
Proof.
  intros w res w' _. unfold df_to_csv, on_objects, deref, emit, modify, bind.
  destruct (objects w !! r) as [df|]; intros [= <- <-]; (split; [|done]).
  - split; [done|]. split; [|by eexists].
    intros q Hq. cbn [files]. by rewrite lookup_insert_ne.
  - repeat split; [done..|]. exists []. cbn [log]. by rewrite app_nil_r.
Qed.

Section frame_train.
Variable Model : Type.
Variable fit : Cfg → Lightning.WandbLogger → Lightning.ModelCheckpoint →
               list TrainRow → list TrainRow → result Model.
Variable test : Model → list TestRow → result (list Row).
Variable rng : list nat → list nat.

Lemma frames_train_model cfg train_data val_data test_data fold_index rs :
  frames (path_join (current_dir cfg) "submission.csv") (live rs)
    (train_model Model fit test cfg train_data val_data test_data fold_index)
    (λ r w, live (rs ++ [r]) w).
Proof.
  intros w res w' Hlive Hrun.
  destruct (fit cfg (logger cfg fold_index) (checkpointer cfg fold_index)
              train_data val_data) as [model|e] eqn:Hfit.
  - destruct (test model test_data) as [sub|e] eqn:Htest.
    + rewrite (train_model_run _ _ _ _ _ _ _ _ _ _ _ Hfit Htest) in Hrun.
      injection Hrun as <- <-.
      assert (Hfresh : objects w !! fresh (dom (objects w)) = None)
        by apply not_elem_of_dom, is_fresh.
      assert (Hext : extends (path_join (current_dir cfg) "submission.csv") w
                (mkWorld (<[fresh (dom (objects w)) := sub]> (objects w))
                   (<[path_join (current_dir cfg) "submission.csv"
                        := SubmissionCsv sub]> (files w))
                   (log w ++ fold_events cfg fold_index))).
      { split; [|split]; cbn [objects files log].
        - intros x df Hx. rewrite lookup_insert_ne; [done|]. intros <-. congruence.
        - intros p Hp. by rewrite lookup_insert_ne.
        - by eexists. }
      split; [done|]. intros r [= <-]. apply Forall_app. split.
      * by eapply live_extends.
      * constructor; [|constructor]. cbn [objects]. rewrite lookup_insert_eq.
        by eexists.
    + rewrite (train_model_raise Model fit test cfg train_data val_data
                 test_data fold_index e w) in Hrun
        by (by rewrite Hfit; cbn [rbind]).
      injection Hrun as <- <-. split; [apply extends_log|done].
  - rewrite (train_model_raise Model fit test cfg train_data val_data
               test_data fold_index e w) in Hrun by (by rewrite Hfit).
    injection Hrun as <- <-. split; [apply extends_log|done].
Qed.

Lemma frames_train_loop cfg (train_df : list TrainRow) (test_df : list TestRow)
    (folds : list (nat * (list nat * list nat))) acc :
  frames (path_join (current_dir cfg) "submission.csv") (live acc)
    (for_each folds acc
       (λ predictions '(ii, (train_indices, val_indices)),
          let* train_data := lift (iloc train_df train_indices) in
          let* val_data := lift (iloc train_df val_indices) in
          let* test_predictions :=
            train_model Model fit test cfg train_data val_data test_df ii in
          pure (predictions ++ [test_predictions])))
    (λ predictions w, live predictions w).
Proof.
  revert acc. induction folds as [|[ii [tr va]] folds IH]; intros acc.
  - cbn [for_each]. apply frames_pure.
  - cbn [for_each]. eapply frames_bind; [|intros acc'; apply IH].
    eapply frames_bind; [apply frames_lift|]. intros train_data. cbn beta.
    eapply frames_bind; [apply frames_lift|]. intros val_data. cbn beta.
    eapply frames_bind; [apply frames_train_model|]. intros r. cbn beta.
    apply frames_pure.
Qed.

(** X15. Whatever [fit] and [test] return or raise and however the run
    ends, the statements of [train] leave every object of the store as it
    was, rewrite no table on disk other than [submission.csv] under
    [current_dir] (so [train.csv] and [test.csv] are never changed), and
    only add to the events that were there. *)
Theorem train_frame (cfg : Cfg) (w : World) (res : result unit) (w' : World) :
  train Model fit test rng cfg w = (res, w') →
  (∀ x df, objects w !! x = Some df → objects w' !! x = Some df)
  ∧ (∀ p, p ≠ path_join (current_dir cfg) "submission.csv" →
       files w' !! p = files w !! p)
  ∧ ∃ events, log w' = log w ++ events.
Proof.
  intros Hrun.
  assert (Hframes : frames (path_join (current_dir cfg) "submission.csv")
                      (λ _, True) (train Model fit test rng cfg) (λ _ _, True)).
  { unfold train.
    eapply frames_bind; [apply frames_read_csv_train|]. intros train_df. cbn beta.
    eapply frames_bind; [apply frames_read_csv_test|]. intros test_df. cbn beta.
    eapply frames_bind; [apply frames_lift|]. intros folds. cbn beta.
    eapply frames_bind; [apply frames_lift|]. intros splits. cbn beta.
    eapply frames_bind.
    { eapply frames_weaken; [| |apply frames_train_loop].
      - intros w0 _. constructor.
      - intros predictions w0 Hlive. exact Hlive. }
    intros predictions. cbn beta.
    eapply frames_bind; [apply frames_emit|]. intros ?. cbn beta.
    eapply frames_bind; [apply frames_most_frequent_prediction|].
    intros final. cbn beta.
    eapply frames_bind; [apply frames_df_to_csv|]. intros ?.
    eapply frames_bind.
    { eapply frames_weaken; [| |apply (frames_emit _ _ [])];
        [intros; constructor|done]. }
    intros ?. cbn beta. eapply frames_bind.
    { eapply frames_weaken; [| |apply (frames_emit _ _ [])];
        [intros; constructor|done]. }
    intros ?. cbn beta. eapply frames_bind.
    { eapply frames_weaken; [| |apply (frames_emit _ _ [])];
        [intros; constructor|done]. }
    intros ?. cbn beta.
    eapply frames_weaken; [| |apply (frames_emit _ _ [])];
      [intros; constructor|done]. }
  by destruct (Hframes w res w' I Hrun) as [Hext _].
Qed.
End frame_train.

Lemma train_frame_witness :
  let w' := (train Z failing_fit sample_predict reverse sample_cfg sample_world).2 in
  (∀ x df, objects sample_world !! x = Some df → objects w' !! x = Some df)
  ∧ (∀ p, p ≠ path_join (current_dir sample_cfg) "submission.csv" →
       files w' !! p = files sample_world !! p)
  ∧ ∃ events, log w' = log sample_world ++ events.
Proof.
  apply (train_frame Z failing_fit sample_predict reverse sample_cfg sample_world
           (train Z failing_fit sample_predict reverse sample_cfg sample_world).1).
  apply surjective_pairing.
Defined.
